(** * github-org-labels-to-csv.js: a shallow embedding and its properties

    The script lists the repositories of a GitHub organization, fetches the
    labels of each one and writes them to [labels.csv].  It is modelled as a
    program in a small monad that threads the trace of observable effects
    (console lines, HTTP requests, timer pauses, file writes) and carries the
    three ways a JavaScript computation can end: normally, by a thrown
    [Error], or by [process.exit].

    What the script cannot decide is given by a [World]: the command-line
    argument, the token of the environment, the platform's answer to each
    request in turn, and whether the file write throws.  Response bodies
    have the shape the source documents for them, an array of objects; the
    fields of an object are arbitrary primitive values, read with
    JavaScript's conversions. *)

From stdpp Require Import base option list gmap strings pretty.

Open Scope string_scope.
Open Scope list_scope.
Open Scope Z_scope.

(** ** JavaScript values

    The values the script reads out of parsed JSON objects and interpolates
    into template literals.  [JsNumber n] stands for the number [n] only
    when [n] is a safe integer, of magnitude at most 2^53 - 1: a larger one
    is rounded by the parser or printed with an exponent, and is outside
    this model.  No property below depends on how a number prints. *)

Inductive JsValue : Type :=
| JsUndefined
| JsNull
| JsBool (b : bool)
| JsNumber (n : Z)
| JsString (s : string).

(** [ToBoolean]: the falsy values are [undefined], [null], [false], [0] and
    the empty string. *)
Definition ToBoolean (v : JsValue) : bool :=
  match v with
  | JsUndefined => false
  | JsNull => false
  | JsBool b => b
  | JsNumber n => negb (n =? 0)
  | JsString s => negb (String.eqb s EmptyString)
  end.

(** [ToString], as applied by a template literal [`${v}`]. *)
Definition ToString (v : JsValue) : string :=
  match v with
  | JsUndefined => "undefined"
  | JsNull => "null"
  | JsBool true => "true"
  | JsBool false => "false"
  | JsNumber n => pretty n
  | JsString s => s
  end.

(** [a || b] *)
Definition js_or (a b : JsValue) : JsValue :=
  if ToBoolean a then a else b.

(** A parsed JSON object, and the property read [o.k], which yields
    [undefined] for an absent key. *)
Abbreviation JsObject := (gmap string JsValue).

Definition prop (o : JsObject) (k : string) : JsValue :=
  default JsUndefined (o !! k).

(** ** Characters that a Rocq string literal cannot hold directly *)

Definition quote : string := String (Ascii.ascii_of_nat 34) EmptyString.
Definition newline : string := String (Ascii.ascii_of_nat 10) EmptyString.

(** ** The world the script runs in *)

(** The outcome of one [fetch] followed by [response.json()]: the request
    itself may reject; otherwise the response has [ok] and [statusText], and
    reading its body either rejects or yields the parsed array of objects
    (the [Promise<Array>] of the source's JSDoc). *)
Inductive FetchResult : Type :=
| FetchRejected (message : string)
| FetchResponse (ok : bool) (statusText : string)
                (json : string + list JsObject).

Record World : Type := {
  (** [process.argv[2]] *)
  argv2 : option string;
  (** [process.env.GITHUB_TOKEN] *)
  GITHUB_TOKEN : option string;
  (** what the platform answers to the n-th request of the run *)
  network : nat -> FetchResult;
  (** [fs.writeFileSync path data]: [None] when it returns, [Some message]
      when it throws *)
  disk : string -> string -> option string
}.

(** ** Observable effects *)

Inductive Event : Type :=
| ConsoleLog (line : string)
| ConsoleError (line : string)
| Fetch (url authorization accept : string)
| SetTimeout (ms : Z)
| WriteFileSync (path data : string).

Record State : Type := {
  trace : list Event;
  fetches : nat
}.

Definition init : State := {| trace := []; fetches := 0 |}.

(** ** The monad *)

Inductive Completion (A : Type) : Type :=
| Normal (a : A)
| Throw (message : string)
| Exit (code : Z).
Arguments Normal {A} a.
Arguments Throw {A} message.
Arguments Exit {A} code.

Definition M (A : Type) : Type := State -> State * Completion A.

#[global] Instance M_ret : MRet M := λ A a st, (st, Normal a).

#[global] Instance M_bind : MBind M := λ A B f m st,
  match m st with
  | (st', Normal a) => f a st'
  | (st', Throw message) => (st', Throw message)
  | (st', Exit code) => (st', Exit code)
  end.

Definition emit (e : Event) : M () := λ st,
  ({| trace := trace st ++ [e]; fetches := fetches st |}, Normal ()).

(** [throw new Error(message)] *)
Definition throw {A} (message : string) : M A := λ st, (st, Throw message).

(** [process.exit(code)]: nothing after it runs, and no [catch] sees it. *)
Definition process_exit {A} (code : Z) : M A := λ st, (st, Exit code).

(** [try { body } catch (error) { handler(error.message) }] *)
Definition try_catch {A} (body : M A) (handler : string -> M A) : M A := λ st,
  match body st with
  | (st', Throw message) => handler message st'
  | r => r
  end.

Definition console_log (line : string) : M () := emit (ConsoleLog line).
Definition console_error (line : string) : M () := emit (ConsoleError line).

(** [await new Promise(resolve => setTimeout(resolve, ms))] *)
Definition pause (ms : Z) : M () := emit (SetTimeout ms).

Record Response : Type := {
  ok : bool;
  statusText : string;
  body : string + list JsObject
}.

(** [response.json()] *)
Definition json (response : Response) : M (list JsObject) :=
  match body response with
  | inl message => throw message
  | inr value => mret value
  end.

Section Script.
Context (w : World).

(** [await fetch(url, { headers: { Authorization, Accept } })] *)
Definition fetch (url authorization accept : string) : M Response := λ st,
  let st' := {| trace := trace st ++ [Fetch url authorization accept];
                fetches := S (fetches st) |} in
  match network w (fetches st) with
  | FetchRejected message => (st', Throw message)
  | FetchResponse o s b =>
      (st', Normal {| ok := o; statusText := s; body := b |})
  end.

Definition writeFileSync (path data : string) : M () := λ st,
  let st' := {| trace := trace st ++ [WriteFileSync path data];
                fetches := fetches st |} in
  match disk w path data with
  | None => (st', Normal ())
  | Some message => (st', Throw message)
  end.

Definition GITHUB_API_URL : string := "https://api.github.com".

Definition TOKEN : JsValue := from_option JsString JsUndefined (GITHUB_TOKEN w).

Definition getAllReposForOrg (orgName : JsValue) : M (list JsObject) :=
  response ← fetch (GITHUB_API_URL +:+ "/orgs/" +:+ ToString orgName +:+ "/repos")
                   ("token " +:+ ToString TOKEN)
                   "application/vnd.github.v3+json";
  if negb (ok response) then
    throw ("Failed to fetch repositories for organization "
           +:+ ToString orgName +:+ ": " +:+ statusText response)
  else json response.

Definition getRepoLabels (orgName : JsValue) (repo : JsObject)
  : M (list JsObject) :=
  let name := prop repo "name" in
  response ← fetch (GITHUB_API_URL +:+ "/repos/" +:+ ToString orgName +:+ "/"
                    +:+ ToString name +:+ "/labels")
                   ("token " +:+ ToString TOKEN)
                   "application/vnd.github.v3+json";
  if negb (ok response) then
    throw ("Failed to fetch labels for " +:+ ToString name +:+ ": "
           +:+ statusText response)
  else json response.

(** One element of [allLabels]: the four-element array pushed for a label. *)
Definition Row : Type := JsValue * JsValue * JsValue * JsValue.

Definition row_of (repo label : JsObject) : Row :=
  (prop repo "name", prop label "name",
   js_or (prop label "description") (JsString EmptyString),
   prop label "color").

(** [labels.forEach(label => { allLabels.push([...]) })] *)
Definition forEach_push (repo : JsObject) (labels : list JsObject)
    (allLabels : list Row) : list Row :=
  fold_left (λ acc label, acc ++ [row_of repo label]) labels allLabels.

(** The body of [for (const repo of repos)], iterated. *)
Fixpoint for_of_repos (orgName : JsValue) (repos : list JsObject)
    (allLabels : list Row) : M (list Row) :=
  match repos with
  | [] => mret allLabels
  | repo :: rest =>
      console_log ("Fetching labels for " +:+ ToString (prop repo "name")
                   +:+ "...");;
      allLabels' ← try_catch
        (labels ← getRepoLabels orgName repo;
         mret (forEach_push repo labels allLabels))
        (λ message,
           console_error ("Error fetching labels for "
                          +:+ ToString (prop repo "name") +:+ ": " +:+ message);;
           mret allLabels);
      pause 1000;;
      for_of_repos orgName rest allLabels'
  end.

(** The template literal of the [map] callback. *)
Definition render (r : Row) : string :=
  let '(repo, label, description, color) := r in
  quote +:+ ToString repo +:+ quote +:+ "," +:+
  quote +:+ ToString label +:+ quote +:+ "," +:+
  quote +:+ ToString description +:+ quote +:+ "," +:+
  quote +:+ "#" +:+ ToString color +:+ quote.

Definition header : string := "Repo,Label,Description,Color".

(** The second argument of [fs.writeFileSync]. *)
Definition labels_csv (allLabels : list Row) : string :=
  header +:+ newline +:+ String.concat newline (map render allLabels).

Definition main : M () :=
  let orgName := from_option JsString JsUndefined (argv2 w) in
  (if negb (ToBoolean orgName) then
     console_error "Please provide a GitHub organization name as an argument.";;
     process_exit 1
   else mret ());;
  repos ← getAllReposForOrg orgName;
  allLabels ← for_of_repos orgName repos [];
  writeFileSync "labels.csv" (labels_csv allLabels);;
  console_log "CSV file created: labels.csv".

(** [main().catch(error => console.error(...))], and the exit code the
    process ends with: the argument of [process.exit] when it was called,
    and otherwise 0, as nothing sets [process.exitCode]. *)
Definition script : list Event * Z :=
  match main init with
  | (st, Normal _) => (trace st, 0)
  | (st, Throw message) =>
      (trace st ++ [ConsoleError ("Failed to execute script: " +:+ message)], 0)
  | (st, Exit code) => (trace st, code)
  end.

End Script.

(** ** What one call yields

    The outcome of [getAllReposForOrg] and [getRepoLabels] as a function of
    the platform's answer: the parsed array when the call succeeds, the
    message of the thrown [Error] when it fails. *)

Definition call_outcome (failure : string -> string) (r : FetchResult)
  : string + list JsObject :=
  match r with
  | FetchRejected message => inl message
  | FetchResponse false s _ => inl (failure s)
  | FetchResponse true _ b => b
  end.

Definition repos_url (orgName : JsValue) : string :=
  GITHUB_API_URL +:+ "/orgs/" +:+ ToString orgName +:+ "/repos".

Definition labels_url (orgName : JsValue) (repo : JsObject) : string :=
  GITHUB_API_URL +:+ "/repos/" +:+ ToString orgName +:+ "/"
  +:+ ToString (prop repo "name") +:+ "/labels".

Definition authorization (w : World) : string := "token " +:+ ToString (TOKEN w).
Definition accept : string := "application/vnd.github.v3+json".

Definition repos_call (w : World) (orgName : JsValue) : string + list JsObject :=
  call_outcome
    (λ s, "Failed to fetch repositories for organization "
          +:+ ToString orgName +:+ ": " +:+ s)
    (network w 0%nat).

(** The label call made as the [k]-th request of the run. *)
Definition labels_call (w : World) (k : nat) (repo : JsObject)
  : string + list JsObject :=
  call_outcome
    (λ s, "Failed to fetch labels for " +:+ ToString (prop repo "name")
          +:+ ": " +:+ s)
    (network w k).

(** The labels a repository's call returned; none when the call failed. *)
Definition labels_returned (w : World) (k : nat) (repo : JsObject)
  : list JsObject :=
  match labels_call w k repo with
  | inr labels => labels
  | inl _ => []
  end.

(** The rows a repository adds to [allLabels]. *)
Definition repo_rows (w : World) (k : nat) (repo : JsObject) : list Row :=
  map (row_of repo) (labels_returned w k repo).

(** The events of one iteration before its pause. *)
Definition processing (w : World) (orgName : JsValue) (k : nat)
    (repo : JsObject) : list Event :=
  [ConsoleLog ("Fetching labels for " +:+ ToString (prop repo "name") +:+ "...");
   Fetch (labels_url orgName repo) (authorization w) accept]
  ++ match labels_call w k repo with
     | inr _ => []
     | inl message =>
         [ConsoleError ("Error fetching labels for "
                        +:+ ToString (prop repo "name") +:+ ": " +:+ message)]
     end.

Definition iteration (w : World) (orgName : JsValue) (k : nat)
    (repo : JsObject) : list Event :=
  processing w orgName k repo ++ [SetTimeout 1000].

(** Rows and events of the whole loop when its first request is the [k]-th. *)
Fixpoint rows_from (w : World) (k : nat) (repos : list JsObject) : list Row :=
  match repos with
  | [] => []
  | repo :: rest => repo_rows w k repo ++ rows_from w (S k) rest
  end.

Fixpoint events_from (w : World) (orgName : JsValue) (k : nat)
    (repos : list JsObject) : list Event :=
  match repos with
  | [] => []
  | repo :: rest => iteration w orgName k repo ++ events_from w orgName (S k) rest
  end.

Definition is_pause (e : Event) : bool :=
  match e with SetTimeout _ => true | _ => false end.

Definition is_write (e : Event) : bool :=
  match e with WriteFileSync _ _ => true | _ => false end.

Definition is_fetch (e : Event) : bool :=
  match e with Fetch _ _ _ => true | _ => false end.

(** The last character of a string. *)
Fixpoint last_char (s : string) : option Ascii.ascii :=
  match s with
  | EmptyString => None
  | String c EmptyString => Some c
  | String _ rest => last_char rest
  end.

(** The value of [process.argv[2]] as the script reads it. *)
Definition orgName_of (w : World) : JsValue :=
  from_option JsString JsUndefined (argv2 w).
Definition usage : string :=
  "Please provide a GitHub organization name as an argument.".

Definition listing_request (w : World) : Event :=
  Fetch (repos_url (orgName_of w)) (authorization w) accept.

(** The data handed to [fs.writeFileSync] when the listing yields [repos]. *)
Definition output (w : World) (repos : list JsObject) : string :=
  labels_csv (rows_from w 1 repos).

(** The events of a run up to and including the write. *)
Definition events_until_write (w : World) (repos : list JsObject) : list Event :=
  listing_request w :: events_from w (orgName_of w) 1 repos
  ++ [WriteFileSync "labels.csv" (output w repos)].

(** All the rows of a run, in the order they are pushed. *)
Definition all_rows (w : World) (repos : list JsObject) : list Row :=
  concat (imap (λ i repo, repo_rows w (S i) repo) repos).

(** ** Reading a run

    Selections of the events of a run, and the lines and requests of one
    iteration. *)

Definition is_log (e : Event) : bool :=
  match e with ConsoleLog _ => true | _ => false end.

Definition is_error (e : Event) : bool :=
  match e with ConsoleError _ => true | _ => false end.

Definition progress (repo : JsObject) : Event :=
  ConsoleLog ("Fetching labels for " +:+ ToString (prop repo "name") +:+ "...").

Definition completion : Event := ConsoleLog "CSV file created: labels.csv".

Definition labels_request (w : World) (orgName : JsValue) (repo : JsObject)
  : Event :=
  Fetch (labels_url orgName repo) (authorization w) accept.

(** The diagnostics of the loop when its first request is the [k]-th: one
    for each repository whose label call failed. *)
Fixpoint diagnostics_from (w : World) (k : nat) (repos : list JsObject)
  : list Event :=
  match repos with
  | [] => []
  | repo :: rest =>
      match labels_call w k repo with
      | inr _ => []
      | inl message =>
          [ConsoleError ("Error fetching labels for "
                         +:+ ToString (prop repo "name") +:+ ": " +:+ message)]
      end ++ diagnostics_from w (S k) rest
  end.

(** ** Reading the text of a row *)

Fixpoint has_char (c : Ascii.ascii) (s : string) : bool :=
  match s with
  | EmptyString => false
  | String a rest => Ascii.eqb a c || has_char c rest
  end.

Fixpoint count_char (c : Ascii.ascii) (s : string) : nat :=
  match s with
  | EmptyString => 0%nat
  | String a rest =>
      ((if Ascii.eqb a c then 1 else 0) + count_char c rest)%nat
  end.

(** The four strings a row is rendered from. *)
Definition row_text (r : Row) : string * string * string * string :=
  let '(repo, label, description, color) := r in
  (ToString repo, ToString label, ToString description, ToString color).

(** No field of the row holds the character [c]. *)
Definition row_free_of (c : Ascii.ascii) (r : Row) : bool :=
  let '(repo, label, description, color) := row_text r in
  negb (has_char c repo || has_char c label
        || has_char c description || has_char c color).

Definition quote_char : Ascii.ascii := Ascii.ascii_of_nat 34.
Definition newline_char : Ascii.ascii := Ascii.ascii_of_nat 10.

(** What follows the first element in [join]: nothing, or a newline and the
    rest joined. *)
Definition joined_tail (l : list string) : string :=
  match l with
  | [] => EmptyString
  | _ :: _ => String newline_char (String.concat newline l)
  end.

(** ** Sample runs *)

Module Sample.
Definition core : JsObject := {[ "name" := JsString "core" ]}.
Definition web : JsObject := {[ "name" := JsString "web" ]}.
Definition docs : JsObject := {[ "name" := JsString "docs" ]}.

Definition bug : JsObject :=
  {[ "name" := JsString "bug";
     "description" := JsString EmptyString;
     "color" := JsString "d73a4a" ]}.

Definition wontfix : JsObject :=
  {[ "name" := JsString "wontfix"; "color" := JsString "ff00aa" ]}.

Definition typo : JsObject :=
  {[ "name" := JsString "typo, minor";
     "description" := JsString "Spelling, grammar";
     "color" := JsString "0e8a16" ]}.

Definition never_fails : string -> string -> option string := λ _ _, None.

(** The organization [acme] of the specification's example: [core] has
    one label and the label call of [web] fails. *)
Definition acme : World := {|
  argv2 := Some "acme";
  GITHUB_TOKEN := Some "t0";
  network := λ n,
    match n with
    | 0%nat => FetchResponse true "OK" (inr [core; web])
    | 1%nat => FetchResponse true "OK" (inr [bug])
    | _ => FetchResponse false "Not Found" (inr [])
    end;
  disk := never_fails
|}.

(** Three repositories, the middle one failing. *)
Definition three : World := {|
  argv2 := Some "acme";
  GITHUB_TOKEN := Some "t0";
  network := λ n,
    match n with
    | 0%nat => FetchResponse true "OK" (inr [core; web; docs])
    | 1%nat => FetchResponse true "OK" (inr [bug; wontfix])
    | 3%nat => FetchResponse true "OK" (inr [typo])
    | _ => FetchRejected "socket hang up"
    end;
  disk := never_fails
|}.

Definition no_argument : World := {|
  argv2 := None;
  GITHUB_TOKEN := Some "t0";
  network := network acme;
  disk := never_fails
|}.

Definition listing_fails : World := {|
  argv2 := Some "acme";
  GITHUB_TOKEN := Some "t0";
  network := λ _, FetchResponse false "Not Found" (inr []);
  disk := never_fails
|}.

Definition write_fails : World := {|
  argv2 := Some "acme";
  GITHUB_TOKEN := Some "t0";
  network := network acme;
  disk := λ _ _, Some "EACCES: permission denied, open 'labels.csv'"
|}.
(** An organization without repositories. *)
Definition empty_org : World := {|
  argv2 := Some "acme";
  GITHUB_TOKEN := Some "t0";
  network := λ _, FetchResponse true "OK" (inr []);
  disk := never_fails
|}.

(** The argument given as the empty string. *)
Definition empty_argument : World := {|
  argv2 := Some EmptyString;
  GITHUB_TOKEN := Some "t0";
  network := network acme;
  disk := never_fails
|}.

(** No [GITHUB_TOKEN] in the environment. *)
Definition no_token : World := {|
  argv2 := Some "acme";
  GITHUB_TOKEN := None;
  network := network acme;
  disk := never_fails
|}.

(** A repository object without [name], a label without [color]. *)
Definition nameless : JsObject := {[ "id" := JsNumber 7 ]}.
Definition colorless : JsObject := {[ "name" := JsString "bug" ]}.

(** [core] as the platform sends it, with fields the script does not read. *)
Definition core_full : JsObject :=
  {[ "name" := JsString "core"; "id" := JsNumber 42;
     "private" := JsBool false ]}.

(** Two labels whose unescaped fields render to the same line. *)
Definition ambiguous1 : JsObject :=
  {[ "name" := JsString "a";
     "description" := JsString ("b" +:+ quote +:+ "," +:+ quote +:+ "c");
     "color" := JsString "ffffff" ]}.
Definition ambiguous2 : JsObject :=
  {[ "name" := JsString ("a" +:+ quote +:+ "," +:+ quote +:+ "b");
     "description" := JsString "c";
     "color" := JsString "ffffff" ]}.
(** Three repositories, the middle one without any label. *)
Definition quiet : World := {|
  argv2 := Some "acme";
  GITHUB_TOKEN := Some "t0";
  network := λ n,
    match n with
    | 0%nat => FetchResponse true "OK" (inr [core; web; docs])
    | 1%nat => FetchResponse true "OK" (inr [bug])
    | 3%nat => FetchResponse true "OK" (inr [typo])
    | _ => FetchResponse true "OK" (inr [])
    end;
  disk := never_fails
|}.
End Sample.

(** * Properties *)

(** ** The calls, run *)

Section Calls.
Context (w : World) (orgName : JsValue).

Lemma forEach_push_app repo labels allLabels :
  forEach_push repo labels allLabels = allLabels ++ map (row_of repo) labels.
Proof.
  unfold forEach_push. revert allLabels.
  induction labels as [|label labels IH]; intros allLabels; simpl.
  - by rewrite app_nil_r.
  - rewrite IH. by rewrite <- app_assoc.
Qed.

Lemma getAllReposForOrg_run st :
  getAllReposForOrg w orgName st =
  ({| trace := trace st ++ [Fetch (repos_url orgName) (authorization w) accept];
      fetches := S (fetches st) |},
   match call_outcome
           (λ s, "Failed to fetch repositories for organization "
                 +:+ ToString orgName +:+ ": " +:+ s)
           (network w (fetches st)) with
   | inl message => Throw message
   | inr repos => Normal repos
   end).
Proof.
  unfold getAllReposForOrg, mbind, M_bind, fetch.
  destruct (network w (fetches st)) as [m|[] s [m|v]]; reflexivity.
Qed.

Lemma getRepoLabels_run repo st :
  getRepoLabels w orgName repo st =
  ({| trace := trace st ++ [Fetch (labels_url orgName repo) (authorization w) accept];
      fetches := S (fetches st) |},
   match labels_call w (fetches st) repo with
   | inl message => Throw message
   | inr labels => Normal labels
   end).
Proof.
  unfold getRepoLabels, labels_call, mbind, M_bind, fetch.
  destruct (network w (fetches st)) as [m|[] s [m|v]]; reflexivity.
Qed.

(** The loop never throws: it ends normally, having made one request per
    repository and added each repository's rows in turn. *)
Lemma for_of_repos_run repos : ∀ allLabels st,
  for_of_repos w orgName repos allLabels st =
  ({| trace := trace st ++ events_from w orgName (fetches st) repos;
      fetches := (fetches st + length repos)%nat |},
   Normal (allLabels ++ rows_from w (fetches st) repos)).
Proof.
  induction repos as [|repo rest IH]; intros allLabels st.
  - simpl. rewrite !app_nil_r, Nat.add_0_r. by destruct st.
  - cbn [for_of_repos].
    unfold mbind, M_bind, try_catch, console_log, console_error, pause, emit,
      mret, M_ret.
    rewrite getRepoLabels_run. cbn [trace fetches].
    cbn [events_from rows_from length].
    unfold iteration, processing, repo_rows, labels_returned.
    destruct (labels_call w (fetches st) repo) as [message|labels];
      cbn [trace fetches map]; rewrite IH; cbn [trace fetches];
      rewrite ?forEach_push_app, ?app_nil_r, <- ?app_assoc;
      f_equal; f_equal; lia.
Qed.
End Calls.

(** ** The whole run *)

Section Run.
Context (w : World).

Lemma main_run :
  main w init =
  if ToBoolean (orgName_of w) then
    match repos_call w (orgName_of w) with
    | inl message =>
        ({| trace := [listing_request w]; fetches := 1 |}, Throw message)
    | inr repos =>
        match disk w "labels.csv" (output w repos) with
        | None =>
            ({| trace := events_until_write w repos
                         ++ [ConsoleLog "CSV file created: labels.csv"];
                fetches := S (length repos) |}, Normal ())
        | Some message =>
            ({| trace := events_until_write w repos;
                fetches := S (length repos) |}, Throw message)
        end
    end
  else ({| trace := [ConsoleError usage]; fetches := 0 |}, Exit 1).
Proof.
  unfold main. fold (orgName_of w).
  destruct (ToBoolean (orgName_of w)); [|reflexivity].
  cbn [negb].
  unfold mbind at 1. unfold M_bind at 1. unfold mret at 1. unfold M_ret at 1.
  unfold mbind at 1. unfold M_bind at 1.
  rewrite getAllReposForOrg_run. unfold repos_call. cbn [fetches init].
  destruct (call_outcome _ (network w 0%nat)) as [message|repos];
    [reflexivity|].
  unfold mbind at 1. unfold M_bind at 1.
  rewrite for_of_repos_run. cbn [trace fetches init app].
  unfold mbind, M_bind, writeFileSync, console_log, emit.
  cbn [trace fetches]. unfold output, events_until_write, listing_request.
  fold (output w repos).
  destruct (disk w "labels.csv" _); cbn [trace fetches app Nat.add];
    rewrite <- ?app_assoc; reflexivity.
Qed.

Lemma script_run :
  script w =
  if ToBoolean (orgName_of w) then
    match repos_call w (orgName_of w) with
    | inl message =>
        ([listing_request w;
          ConsoleError ("Failed to execute script: " +:+ message)], 0)
    | inr repos =>
        match disk w "labels.csv" (output w repos) with
        | None =>
            (events_until_write w repos
             ++ [ConsoleLog "CSV file created: labels.csv"], 0)
        | Some message =>
            (events_until_write w repos
             ++ [ConsoleError ("Failed to execute script: " +:+ message)], 0)
        end
    end
  else ([ConsoleError usage], 1).
Proof.
  unfold script. rewrite main_run.
  destruct (ToBoolean (orgName_of w)); [|reflexivity].
  destruct (repos_call w (orgName_of w)) as [message|repos]; [reflexivity|].
  destruct (disk w "labels.csv" (output w repos)); reflexivity.
Qed.
End Run.

(** ** The loop, repository by repository *)

Section Loop.
Context (w : World).

Lemma rows_from_app pre post k :
  rows_from w k (pre ++ post) =
  rows_from w k pre ++ rows_from w (k + length pre) post.
Proof.
  revert k. induction pre as [|repo pre IH]; intros k; simpl.
  - by rewrite Nat.add_0_r.
  - rewrite IH, <- app_assoc. by rewrite Nat.add_succ_r.
Qed.

Lemma events_from_app orgName pre post k :
  events_from w orgName k (pre ++ post) =
  events_from w orgName k pre ++ events_from w orgName (k + length pre) post.
Proof.
  revert k. induction pre as [|repo pre IH]; intros k; simpl.
  - by rewrite Nat.add_0_r.
  - rewrite IH, <- !app_assoc. by rewrite Nat.add_succ_r.
Qed.

Lemma rows_from_imap repos k :
  rows_from w k repos =
  concat (imap (λ i repo, repo_rows w (k + i) repo) repos).
Proof.
  revert k. induction repos as [|repo repos IH]; intros k; [done|].
  cbn [rows_from]. rewrite imap_cons, IH, Nat.add_0_r. cbn [concat].
  do 2 f_equal. apply imap_ext. intros i x _. simpl. f_equal. lia.
Qed.

Lemma events_from_imap orgName repos k :
  events_from w orgName k repos =
  concat (imap (λ i repo, iteration w orgName (k + i) repo) repos).
Proof.
  revert k. induction repos as [|repo repos IH]; intros k; [done|].
  cbn [events_from]. rewrite imap_cons, IH, Nat.add_0_r. cbn [concat].
  do 2 f_equal. apply imap_ext. intros i x _. simpl. f_equal. lia.
Qed.

Lemma length_rows_from repos k :
  length (rows_from w k repos) =
  sum_list (imap (λ i repo, length (labels_returned w (k + i) repo)) repos).
Proof.
  revert k. induction repos as [|repo repos IH]; intros k; [done|].
  cbn [rows_from]. rewrite length_app, imap_cons, IH, Nat.add_0_r.
  unfold repo_rows. rewrite length_map. cbn [sum_list sum_list_with].
  do 2 f_equal. apply imap_ext. intros i x _. simpl. do 2 f_equal. lia.
Qed.

(** A repository's rows depend on the answer to its own request only. *)
Lemma rows_from_ext (w' : World) repos k :
  (∀ i, (k ≤ i < k + length repos)%nat → network w' i = network w i) →
  rows_from w' k repos = rows_from w k repos.
Proof.
  revert k. induction repos as [|repo repos IH]; intros k Hnet; [done|].
  cbn [rows_from]. rewrite IH.
  - unfold repo_rows, labels_returned, labels_call.
    rewrite Hnet; [done|]. simpl. lia.
  - intros i Hi. apply Hnet. simpl. lia.
Qed.

Lemma processing_no_pause orgName k repo :
  Forall (λ e, is_pause e = false) (processing w orgName k repo).
Proof.
  unfold processing.
  destruct (labels_call w k repo); repeat constructor.
Qed.

Lemma events_from_no_write orgName repos k :
  Forall (λ e, is_write e = false) (events_from w orgName k repos).
Proof.
  revert k. induction repos as [|repo repos IH]; intros k; [constructor|].
  cbn [events_from]. apply Forall_app. split; [|apply IH].
  unfold iteration, processing.
  destruct (labels_call w k repo); repeat constructor.
Qed.
End Loop.

(** ** Strings: the last character of an append *)

Lemma last_char_app (s t : string) (c : Ascii.ascii) :
  last_char t = Some c → last_char (s +:+ t) = Some c.
Proof.
  intros Ht. induction s as [|a s IH]; [done|].
  change (last_char (String a (s +:+ t)) = Some c). cbn [last_char].
  destruct (s +:+ t); [discriminate IH | exact IH].
Qed.

Lemma last_char_concat (sep : string) (l : list string) (c : Ascii.ascii) :
  l ≠ [] → Forall (λ s, last_char s = Some c) l →
  last_char (String.concat sep l) = Some c.
Proof.
  induction l as [|x l IH]; [done|]. intros _ Hall.
  apply Forall_cons in Hall as [Hx Hl].
  destruct l as [|y l]; [exact Hx|].
  cbn [String.concat]. do 2 apply last_char_app. by apply IH.
Qed.

Lemma last_char_render (r : Row) :
  last_char (render r) = Some (Ascii.ascii_of_nat 34).
Proof.
  destruct r as [[[repo label] description] color]. unfold render.
  do 15 apply last_char_app. reflexivity.
Qed.

Lemma append_assoc (s t u : string) : (s +:+ t) +:+ u = s +:+ t +:+ u.
Proof.
  induction s as [|a s IH]; [done|].
  change (String a ((s +:+ t) +:+ u) = String a (s +:+ t +:+ u)).
  by rewrite IH.
Qed.

Lemma concat_render_last (sep : string) (rows : list Row) (r : Row) :
  ∃ before, String.concat sep (map render (rows ++ [r])) = before +:+ render r.
Proof.
  induction rows as [|x rows [before IH]].
  - by exists EmptyString.
  - exists (render x +:+ sep +:+ before).
    change (map render ((x :: rows) ++ [r]))
      with (render x :: map render (rows ++ [r])).
    cbn [String.concat]. destruct (map render (rows ++ [r])) eqn:E.
    + by destruct rows.
    + by rewrite IH, !append_assoc.
Qed.

Lemma output_all_rows w repos : output w repos = labels_csv (all_rows w repos).
Proof. unfold output, all_rows. by rewrite rows_from_imap. Qed.

Lemma events_from_pause_list w orgName repos k :
  List.filter is_pause (events_from w orgName k repos)
  = replicate (length repos) (SetTimeout 1000).
Proof.
  revert k. induction repos as [|repo repos IH]; intros k; [done|].
  cbn [events_from]. rewrite List.filter_app, IH.
  unfold iteration, processing.
  destruct (labels_call w k repo); reflexivity.
Qed.

(** The exit code is 1 when the argument is missing or empty and 0 in every
    other run, whatever failed in it. *)
Lemma script_exit_code (w : World) :
  (script w).2 = if ToBoolean (orgName_of w) then 0 else 1.
Proof.
  rewrite script_run.
  destruct (ToBoolean (orgName_of w)); [|reflexivity].
  destruct (repos_call w (orgName_of w)) as [message|repos]; [reflexivity|].
  destruct (disk w "labels.csv" (output w repos)); reflexivity.
Qed.

Lemma filter_none {A} (f : A → bool) (l : list A) :
  Forall (λ x, f x = false) l → List.filter f l = [].
Proof.
  induction 1 as [|x l Hx _ IH]; [done|]. simpl. by rewrite Hx.
Qed.

(** ** The run around one repository, and the lines written *)

(** The lines of the rows of the loop, label by label. *)
Lemma map_render_rows_from (w : World) (repos : list JsObject) (k : nat) :
  map render (rows_from w k repos) =
  concat (imap (λ i repo,
                  map (λ label, render (row_of repo label))
                      (labels_returned w (k + i) repo)) repos).
Proof.
  revert k. induction repos as [|repo repos IH]; intros k; [done|].
  cbn [rows_from]. rewrite map_app, imap_cons, IH, Nat.add_0_r. cbn [concat].
  unfold repo_rows. rewrite map_map. f_equal. f_equal.
  apply imap_ext. intros i x _. simpl. do 2 f_equal. lia.
Qed.

Lemma script_single_write (w : World) (repos : list JsObject) :
  ToBoolean (orgName_of w) = true →
  repos_call w (orgName_of w) = inr repos →
  List.filter is_write (script w).1
  = [WriteFileSync "labels.csv" (output w repos)].
Proof.
  intros Horg Hrepos. rewrite script_run, Horg, Hrepos.
  assert (Hwrite : List.filter is_write (events_until_write w repos)
                   = [WriteFileSync "labels.csv" (output w repos)]).
  { unfold events_until_write.
    cbn [app List.filter listing_request is_write].
    rewrite List.filter_app.
    by rewrite (filter_none _ _ (events_from_no_write w _ repos 1)). }
  destruct (disk w "labels.csv" (output w repos)); cbn [fst];
    rewrite List.filter_app, Hwrite; reflexivity.
Qed.

Lemma script_around_repository (w : World) (pre post : list JsObject)
    (repo : JsObject) :
  ToBoolean (orgName_of w) = true →
  repos_call w (orgName_of w) = inr (pre ++ repo :: post) →
  ∃ rest,
    (script w).1 =
    listing_request w :: events_from w (orgName_of w) 1 pre
    ++ iteration w (orgName_of w) (S (length pre)) repo
    ++ events_from w (orgName_of w) (S (S (length pre))) post
    ++ WriteFileSync "labels.csv"
         (labels_csv (rows_from w 1 pre
                      ++ repo_rows w (S (length pre)) repo
                      ++ rows_from w (S (S (length pre))) post))
       :: rest.
Proof.
  intros Horg Hrepos. rewrite script_run, Horg, Hrepos.
  assert (Hev : events_until_write w (pre ++ repo :: post) =
    listing_request w :: events_from w (orgName_of w) 1 pre
    ++ iteration w (orgName_of w) (S (length pre)) repo
    ++ events_from w (orgName_of w) (S (S (length pre))) post
    ++ [WriteFileSync "labels.csv"
          (labels_csv (rows_from w 1 pre
                       ++ repo_rows w (S (length pre)) repo
                       ++ rows_from w (S (S (length pre))) post))]).
  { unfold events_until_write, output.
    rewrite rows_from_app, events_from_app.
    cbn [events_from rows_from Nat.add]. by rewrite <- !app_assoc. }
  destruct (disk w "labels.csv" (output w (pre ++ repo :: post)));
    cbn [fst]; rewrite Hev; eexists;
    rewrite app_comm_cons, <- !app_assoc; cbn [app]; reflexivity.
Qed.

(** The data written when the listing is [pre ++ repo :: post], in a world
    that answers every request but that of [repo] as [w] does. *)
Lemma output_around_repository (w w' : World) (pre post : list JsObject)
    (repo : JsObject) :
  (∀ i, i ≠ S (length pre) → network w' i = network w i) →
  output w' (pre ++ repo :: post) =
  labels_csv (rows_from w 1 pre
              ++ repo_rows w' (S (length pre)) repo
              ++ rows_from w (S (S (length pre))) post).
Proof.
  intros Hnet. unfold output. rewrite rows_from_app.
  cbn [rows_from Nat.add].
  rewrite (rows_from_ext w w' pre 1), (rows_from_ext w w' post);
    [done | intros i Hi; apply Hnet; lia..].
Qed.

(** * The claims *)

(** C1. The exit code of a run whose repository listing fails, and of a run
    whose final write fails, evaluated on the script: both runs print
    [Failed to execute script: ...] on standard error and end with exit
    code 0, where the missing-argument path ends with 1. *)
Theorem exit_code_of_failed_runs :
  script Sample.listing_fails =
    ([Fetch "https://api.github.com/orgs/acme/repos" "token t0"
            "application/vnd.github.v3+json";
      ConsoleError ("Failed to execute script: Failed to fetch repositories "
                    +:+ "for organization acme: Not Found")], 0)
  ∧ (script Sample.write_fails).2 = 0
  ∧ last (script Sample.write_fails).1 =
      Some (ConsoleError ("Failed to execute script: EACCES: permission "
                          +:+ "denied, open 'labels.csv'"))
  ∧ (script Sample.no_argument).2 = 1.
Proof. repeat split; vm_compute; reflexivity. Qed.

(** C2. When the label call of one repository fails, the run is: the
    events of the repositories before it; its progress line, its request,
    a diagnostic naming it and the error, and the pause; the events of the
    repositories after it; and the write, whose data is the header followed
    by the lines of the labels of the repositories before and after it and
    no line of its own.  Those lines are the same in every run that differs
    only in the answer to the failed request: there the data holds them
    around the lines of what that answer returned. *)
Theorem label_failure_is_isolated (w : World) (pre post : list JsObject)
    (repo : JsObject) (message : string) :
  ToBoolean (orgName_of w) = true →
  repos_call w (orgName_of w) = inr (pre ++ repo :: post) →
  labels_call w (S (length pre)) repo = inl message →
  let line (r label : JsObject) : string :=
    quote +:+ ToString (prop r "name") +:+ quote +:+ "," +:+
    quote +:+ ToString (prop label "name") +:+ quote +:+ "," +:+
    quote +:+ ToString (js_or (prop label "description") (JsString EmptyString))
    +:+ quote +:+ "," +:+
    quote +:+ "#" +:+ ToString (prop label "color") +:+ quote in
  let lines (k : nat) (rs : list JsObject) : list string :=
    concat (imap (λ i r, map (line r) (labels_returned w (k + i) r)) rs) in
  (∃ rest,
      (script w).1 =
      listing_request w :: events_from w (orgName_of w) 1 pre
      ++ [ConsoleLog ("Fetching labels for " +:+ ToString (prop repo "name")
                      +:+ "...");
          Fetch (labels_url (orgName_of w) repo) (authorization w) accept;
          ConsoleError ("Error fetching labels for "
                        +:+ ToString (prop repo "name") +:+ ": " +:+ message);
          SetTimeout 1000]
      ++ events_from w (orgName_of w) (S (S (length pre))) post
      ++ WriteFileSync "labels.csv"
           ("Repo,Label,Description,Color" +:+ newline +:+
            String.concat newline
              (lines 1%nat pre ++ lines (S (S (length pre))) post))
         :: rest)
  ∧ (∀ w' : World,
      argv2 w' = argv2 w →
      (∀ i, i ≠ S (length pre) → network w' i = network w i) →
      List.filter is_write (script w').1 =
      [WriteFileSync "labels.csv"
         ("Repo,Label,Description,Color" +:+ newline +:+
          String.concat newline
            (lines 1%nat pre
             ++ map (line repo) (labels_returned w' (S (length pre)) repo)
             ++ lines (S (S (length pre))) post))]).
Proof.
  intros Horg Hrepos Hfail line lines.
  assert (Hlines : ∀ k rs, map render (rows_from w k rs) = lines k rs).
  { intros k rs. apply map_render_rows_from. }
  split.
  - destruct (script_around_repository w pre post repo Horg Hrepos)
      as [rest Htrace].
    exists rest. rewrite Htrace.
    unfold iteration, processing, repo_rows, labels_returned.
    rewrite Hfail. cbn [map app]. unfold labels_csv.
    rewrite map_app, !Hlines. reflexivity.
  - intros w' Hargv Hnet.
    assert (Horg' : orgName_of w' = orgName_of w).
    { unfold orgName_of. by rewrite Hargv. }
    assert (Hrepos' : repos_call w' (orgName_of w') = inr (pre ++ repo :: post)).
    { rewrite Horg', <- Hrepos. unfold repos_call. by rewrite Hnet. }
    rewrite (script_single_write w' (pre ++ repo :: post));
      [|by rewrite Horg' | exact Hrepos'].
    rewrite (output_around_repository w w' pre post repo Hnet).
    unfold labels_csv, repo_rows.
    rewrite !map_app, !Hlines, map_map. reflexivity.
Qed.

Lemma label_failure_is_isolated_witness :
  (ToBoolean (orgName_of Sample.three) = true
   ∧ repos_call Sample.three (orgName_of Sample.three)
     = inr ([Sample.core] ++ Sample.web :: [Sample.docs])
   ∧ labels_call Sample.three 2 Sample.web = inl "socket hang up")
  ∧ ∃ rest,
      (script Sample.three).1 =
      [Fetch "https://api.github.com/orgs/acme/repos" "token t0" accept;
       ConsoleLog "Fetching labels for core...";
       Fetch "https://api.github.com/repos/acme/core/labels" "token t0" accept;
       SetTimeout 1000;
       ConsoleLog "Fetching labels for web...";
       Fetch "https://api.github.com/repos/acme/web/labels" "token t0" accept;
       ConsoleError "Error fetching labels for web: socket hang up";
       SetTimeout 1000;
       ConsoleLog "Fetching labels for docs...";
       Fetch "https://api.github.com/repos/acme/docs/labels" "token t0" accept;
       SetTimeout 1000;
       WriteFileSync "labels.csv"
         ("Repo,Label,Description,Color" +:+ newline +:+
          quote +:+ "core" +:+ quote +:+ "," +:+ quote +:+ "bug" +:+ quote
          +:+ "," +:+ quote +:+ quote +:+ "," +:+ quote +:+ "#d73a4a"
          +:+ quote +:+ newline +:+
          quote +:+ "core" +:+ quote +:+ "," +:+ quote +:+ "wontfix" +:+ quote
          +:+ "," +:+ quote +:+ quote +:+ "," +:+ quote +:+ "#ff00aa"
          +:+ quote +:+ newline +:+
          quote +:+ "docs" +:+ quote +:+ "," +:+ quote +:+ "typo, minor"
          +:+ quote +:+ "," +:+ quote +:+ "Spelling, grammar" +:+ quote
          +:+ "," +:+ quote +:+ "#0e8a16" +:+ quote)]
      ++ rest.
Proof.
  split; [repeat split|].
  exact (proj1 (label_failure_is_isolated Sample.three [Sample.core]
                  [Sample.docs] Sample.web "socket hang up"
                  eq_refl eq_refl eq_refl)).
Defined.

(** C3. When the platform answers the repository listing with a
    non-success status, no event of the run is a file write: the run is the
    listing request followed by the diagnostic of the top-level handler
    (or the usage diagnostic alone when no request was made). *)
Theorem listing_failure_writes_nothing (w : World) (status : string)
    (b : string + list JsObject) :
  network w 0%nat = FetchResponse false status b →
  Forall (λ e, is_write e = false) (script w).1
  ∧ (ToBoolean (orgName_of w) = true →
     (script w).1 =
     [listing_request w;
      ConsoleError ("Failed to execute script: "
                    +:+ "Failed to fetch repositories for organization "
                    +:+ ToString (orgName_of w) +:+ ": " +:+ status)]).
Proof.
  intros Hnet. rewrite script_run. unfold repos_call. rewrite Hnet.
  cbn [call_outcome].
  destruct (ToBoolean (orgName_of w)); cbn [fst].
  - split; [repeat constructor | reflexivity].
  - split; [repeat constructor | discriminate].
Qed.

Lemma listing_failure_writes_nothing_witness :
  network Sample.listing_fails 0%nat = FetchResponse false "Not Found" (inr [])
  ∧ Forall (λ e, is_write e = false) (script Sample.listing_fails).1.
Proof.
  split; [reflexivity|].
  exact (proj1 (listing_failure_writes_nothing Sample.listing_fails
                  "Not Found" (inr []) eq_refl)).
Defined.

(** C4. In a run that completes (the listing succeeds and the write
    returns) there is one write, of the header followed by one line per
    label returned, repository by repository; the number of these lines is
    the sum of the label counts over the repositories, a failed call
    counting for none. *)
Theorem rows_are_counted_by_labels (w : World) (st : State) :
  main w init = (st, Normal ()) →
  let line (r label : JsObject) : string :=
    quote +:+ ToString (prop r "name") +:+ quote +:+ "," +:+
    quote +:+ ToString (prop label "name") +:+ quote +:+ "," +:+
    quote +:+ ToString (js_or (prop label "description") (JsString EmptyString))
    +:+ quote +:+ "," +:+
    quote +:+ "#" +:+ ToString (prop label "color") +:+ quote in
  ∃ (repos : list JsObject) (lines : list string),
    repos_call w (orgName_of w) = inr repos
    ∧ List.filter is_write (trace st)
      = [WriteFileSync "labels.csv"
           ("Repo,Label,Description,Color" +:+ newline +:+
            String.concat newline lines)]
    ∧ lines = concat (imap (λ i repo,
                              map (line repo) (labels_returned w (S i) repo))
                           repos)
    ∧ length lines
      = sum_list (imap (λ i repo, length (labels_returned w (S i) repo)) repos).
Proof.
  rewrite main_run.
  destruct (ToBoolean (orgName_of w)); [|discriminate].
  destruct (repos_call w (orgName_of w)) as [message|repos]; [discriminate|].
  destruct (disk w "labels.csv" (output w repos)); [discriminate|].
  intros [= <-] line. exists repos, (map render (rows_from w 1 repos)).
  split; [reflexivity|]. split; [|split].
  - cbn [trace]. unfold events_until_write.
    cbn [app List.filter listing_request is_write].
    rewrite !List.filter_app.
    rewrite (filter_none _ _ (events_from_no_write w _ repos 1)).
    reflexivity.
  - apply (map_render_rows_from w repos 1).
  - rewrite length_map. apply (length_rows_from w repos 1).
Qed.

Lemma rows_are_counted_by_labels_witness :
  ∃ st, main Sample.three init = (st, Normal ())
  ∧ ∃ (repos : list JsObject) (lines : list string),
      repos_call Sample.three (orgName_of Sample.three) = inr repos
      ∧ List.filter is_write (trace st)
        = [WriteFileSync "labels.csv"
             ("Repo,Label,Description,Color" +:+ newline +:+
              String.concat newline lines)]
      ∧ lines
        = concat (imap (λ i repo,
                    map (λ label,
                           quote +:+ ToString (prop repo "name") +:+ quote
                           +:+ "," +:+
                           quote +:+ ToString (prop label "name") +:+ quote
                           +:+ "," +:+
                           quote
                           +:+ ToString (js_or (prop label "description")
                                               (JsString EmptyString))
                           +:+ quote +:+ "," +:+
                           quote +:+ "#" +:+ ToString (prop label "color")
                           +:+ quote)
                        (labels_returned Sample.three (S i) repo)) repos)
      ∧ length lines
        = sum_list (imap (λ i repo,
                      length (labels_returned Sample.three (S i) repo)) repos).
Proof.
  eexists. split; [vm_compute; reflexivity|].
  exact (rows_are_counted_by_labels Sample.three _ eq_refl).
Defined.

(** C5. A row is rendered as its four fields in the order repository,
    label, description, color, each between double quotes, separated by
    commas, the strings of the fields taken as they are; a label without a
    description gives an empty quoted field, and the color is preceded by
    [#]. *)
Theorem row_rendering (repo label : JsObject) (r n c : string) :
  prop repo "name" = JsString r →
  prop label "name" = JsString n →
  prop label "color" = JsString c →
  (∀ d, label !! "description" = Some (JsString d) →
     render (row_of repo label) =
     quote +:+ r +:+ quote +:+ "," +:+ quote +:+ n +:+ quote +:+ "," +:+
     quote +:+ d +:+ quote +:+ "," +:+ quote +:+ "#" +:+ c +:+ quote)
  ∧ (label !! "description" = None →
     render (row_of repo label) =
     quote +:+ r +:+ quote +:+ "," +:+ quote +:+ n +:+ quote +:+ "," +:+
     quote +:+ quote +:+ "," +:+ quote +:+ "#" +:+ c +:+ quote)
  ∧ (c = "ff00aa" →
     ∃ before, render (row_of repo label) =
               before +:+ "," +:+ quote +:+ "#ff00aa" +:+ quote).
Proof.
  intros Hr Hn Hc. unfold row_of, render. rewrite Hr, Hn, Hc.
  cbn [ToString]. split; [|split].
  - intros d Hd. unfold prop at 1. rewrite Hd.
    unfold js_or. cbn [default from_option id ToBoolean].
    destruct (String.eqb_spec d EmptyString) as [->|_]; reflexivity.
  - intros Hd. unfold prop at 1. rewrite Hd. reflexivity.
  - intros ->.
    exists (quote +:+ r +:+ quote +:+ "," +:+ quote +:+ n +:+ quote +:+ ","
            +:+ quote
            +:+ ToString (js_or (prop label "description") (JsString EmptyString))
            +:+ quote).
    rewrite !append_assoc. reflexivity.
Qed.

Lemma row_rendering_witness :
  (prop Sample.core "name" = JsString "core"
   ∧ prop Sample.typo "name" = JsString "typo, minor"
   ∧ prop Sample.typo "color" = JsString "0e8a16"
   ∧ Sample.typo !! "description" = Some (JsString "Spelling, grammar"))
  ∧ render (row_of Sample.core Sample.typo) =
    quote +:+ "core" +:+ quote +:+ "," +:+ quote +:+ "typo, minor" +:+ quote
    +:+ "," +:+ quote +:+ "Spelling, grammar" +:+ quote +:+ "," +:+ quote
    +:+ "#" +:+ "0e8a16" +:+ quote.
Proof.
  split; [repeat split|].
  exact (proj1 (row_rendering Sample.core Sample.typo "core" "typo, minor"
                  "0e8a16" eq_refl eq_refl eq_refl)
           "Spelling, grammar" eq_refl).
Defined.

(** C6. Without the organization argument the run is one line on standard
    error and exit code 1: no request is made, nothing is written. *)
Theorem missing_argument_aborts (w : World) :
  argv2 w = None →
  script w = ([ConsoleError usage], 1)
  ∧ Forall (λ e, is_fetch e = false) (script w).1.
Proof.
  intros Harg. rewrite script_run. unfold orgName_of. rewrite Harg.
  cbn [from_option ToBoolean]. split; [reflexivity | repeat constructor].
Qed.

Lemma missing_argument_aborts_witness :
  argv2 Sample.no_argument = None
  ∧ script Sample.no_argument
    = ([ConsoleError "Please provide a GitHub organization name as an argument."],
       1).
Proof.
  split; [reflexivity|].
  exact (proj1 (missing_argument_aborts Sample.no_argument eq_refl)).
Defined.

(** C7. The one file write of a run whose listing succeeds carries the
    header and then the rows of the repositories in listing order, the rows
    of a repository being its labels in the order its call returned them. *)
Theorem rows_follow_listing_order (w : World) (repos : list JsObject) :
  ToBoolean (orgName_of w) = true →
  repos_call w (orgName_of w) = inr repos →
  List.filter is_write (script w).1 =
  [WriteFileSync "labels.csv"
     (header +:+ newline +:+
      String.concat newline
        (map render
           (concat (imap (λ i repo,
                           map (row_of repo) (labels_returned w (S i) repo))
                         repos))))].
Proof.
  intros Horg Hrepos. rewrite script_run, Horg, Hrepos.
  assert (Hwrite : List.filter is_write (events_until_write w repos)
                   = [WriteFileSync "labels.csv" (output w repos)]).
  { unfold events_until_write.
    cbn [app List.filter listing_request is_write].
    rewrite List.filter_app.
    by rewrite (filter_none _ _ (events_from_no_write w _ repos 1)). }
  rewrite output_all_rows in Hwrite.
  destruct (disk w "labels.csv" (output w repos)); cbn [fst];
    rewrite List.filter_app, Hwrite; reflexivity.
Qed.

Lemma rows_follow_listing_order_witness :
  (ToBoolean (orgName_of Sample.three) = true
   ∧ repos_call Sample.three (orgName_of Sample.three)
     = inr [Sample.core; Sample.web; Sample.docs])
  ∧ List.filter is_write (script Sample.three).1 =
    [WriteFileSync "labels.csv"
       (header +:+ newline +:+
        String.concat newline
          (map render
             [row_of Sample.core Sample.bug;
              row_of Sample.core Sample.wontfix;
              row_of Sample.docs Sample.typo]))].
Proof.
  split; [split; reflexivity|].
  exact (rows_follow_listing_order Sample.three
           [Sample.core; Sample.web; Sample.docs] eq_refl eq_refl).
Defined.

(** C8. The events of the loop are, repository by repository, the events
    of processing it (progress line, request, and the diagnostic when the
    call failed), none of which is a pause, followed by one pause of 1000
    milliseconds; what follows the loop holds no pause, so the run has one
    pause per repository. *)
Theorem pause_after_each_repository (w : World) (repos : list JsObject) :
  ToBoolean (orgName_of w) = true →
  repos_call w (orgName_of w) = inr repos →
  (∃ rest,
     (script w).1 =
     listing_request w
     :: concat (imap (λ i repo,
                        processing w (orgName_of w) (S i) repo
                        ++ [SetTimeout 1000]) repos)
     ++ rest
     ∧ Forall (λ e, is_pause e = false) rest)
  ∧ (∀ i repo,
       Forall (λ e, is_pause e = false) (processing w (orgName_of w) i repo))
  ∧ List.filter is_pause (script w).1
    = replicate (length repos) (SetTimeout 1000).
Proof.
  intros Horg Hrepos. rewrite script_run, Horg, Hrepos.
  pose proof (events_from_imap w (orgName_of w) repos 1) as Himap.
  change (events_from w (orgName_of w) 1 repos =
          concat (imap (λ i repo,
                          processing w (orgName_of w) (S i) repo
                          ++ [SetTimeout 1000]) repos)) in Himap.
  pose proof (events_from_pause_list w (orgName_of w) repos 1) as Hpauses.
  unfold events_until_write.
  split; [|split].
  - destruct (disk w "labels.csv" (output w repos)); cbn [fst];
      rewrite Himap; eexists; (split;
        [rewrite <- app_comm_cons, <- app_assoc; reflexivity
        | repeat constructor]).
  - intros i repo. apply processing_no_pause.
  - destruct (disk w "labels.csv" (output w repos)); cbn [fst];
      rewrite <- app_comm_cons, <- app_assoc;
      cbn [List.filter listing_request is_pause];
      rewrite List.filter_app, Hpauses; cbn; by rewrite app_nil_r.
Qed.

Lemma pause_after_each_repository_witness :
  (ToBoolean (orgName_of Sample.three) = true
   ∧ repos_call Sample.three (orgName_of Sample.three)
     = inr [Sample.core; Sample.web; Sample.docs])
  ∧ List.filter is_pause (script Sample.three).1
    = [SetTimeout 1000; SetTimeout 1000; SetTimeout 1000].
Proof.
  split; [split; reflexivity|].
  exact (proj2 (proj2 (pause_after_each_repository Sample.three
                         [Sample.core; Sample.web; Sample.docs]
                         eq_refl eq_refl))).
Defined.

(** C9. The description of a row is normalized by truthiness: the falsy
    values are exactly [undefined] (also read from an absent key), [null],
    the empty string, [false] and [0], and for a label whose description is
    any of them the row holds the empty string and renders [""] in the
    description field. *)
Theorem falsy_description_is_empty :
  (∀ v, ToBoolean v = false ↔
        v ∈ [JsUndefined; JsNull; JsString EmptyString; JsBool false; JsNumber 0])
  ∧ (∀ label : JsObject,
       label !! "description" = None → prop label "description" = JsUndefined)
  ∧ (∀ repo label : JsObject,
       ToBoolean (prop label "description") = false →
       row_of repo label
       = (prop repo "name", prop label "name", JsString EmptyString,
          prop label "color")
       ∧ render (row_of repo label) =
         quote +:+ ToString (prop repo "name") +:+ quote +:+ "," +:+
         quote +:+ ToString (prop label "name") +:+ quote +:+ "," +:+
         quote +:+ quote +:+ "," +:+
         quote +:+ "#" +:+ ToString (prop label "color") +:+ quote).
Proof.
  split; [|split].
  - intros v. rewrite !elem_of_cons, elem_of_nil. split.
    + destruct v as [| |[]|n|s]; cbn [ToBoolean]; intros Hv;
        try discriminate; auto 10.
      * destruct (Z.eqb_spec n 0) as [Hn|Hn];
          [subst n; auto 10 | discriminate].
      * destruct (String.eqb_spec s EmptyString) as [Hs|Hs];
          [subst s; auto 10 | discriminate].
    + intros [->|[->|[->|[->|[->|[]]]]]]; reflexivity.
  - intros label Habsent. unfold prop. by rewrite Habsent.
  - intros repo label Hfalsy.
    assert (Hrow : row_of repo label
                   = (prop repo "name", prop label "name",
                      JsString EmptyString, prop label "color")).
    { unfold row_of, js_or. by rewrite Hfalsy. }
    split; [exact Hrow|]. rewrite Hrow. reflexivity.
Qed.

Lemma falsy_description_is_empty_witness :
  ToBoolean (prop (<["description" := JsNumber 0]> Sample.wontfix)
               "description") = false
  ∧ row_of Sample.core (<["description" := JsNumber 0]> Sample.wontfix)
    = (JsString "core", JsString "wontfix", JsString EmptyString,
       JsString "ff00aa").
Proof.
  split; [reflexivity|].
  exact (proj1 (proj2 (proj2 falsy_description_is_empty) Sample.core
                  (<["description" := JsNumber 0]> Sample.wontfix) eq_refl)).
Defined.

(** C10. With no row the data written is the header and one newline; with
    at least one row it ends with the rendering of the last row, whose
    last character is the closing double quote: no newline follows it. *)
Theorem trailing_newline_shape :
  labels_csv [] = header +:+ newline
  ∧ (∀ rows : list Row, rows ≠ [] →
       last_char (labels_csv rows) = Some (Ascii.ascii_of_nat 34)
       ∧ last_char (labels_csv rows) ≠ last_char newline)
  ∧ (∀ (rows : list Row) (r : Row),
       ∃ before, labels_csv (rows ++ [r]) = before +:+ render r).
Proof.
  split; [reflexivity|]. split.
  - intros rows Hrows.
    assert (Hlast : last_char (labels_csv rows) = Some (Ascii.ascii_of_nat 34)).
    { unfold labels_csv. do 2 apply last_char_app.
      apply last_char_concat.
      - by destruct rows.
      - apply Forall_map, Forall_forall. intros r _. apply last_char_render. }
    split; [exact Hlast|]. rewrite Hlast. discriminate.
  - intros rows r. unfold labels_csv.
    destruct (concat_render_last newline rows r) as [before ->].
    exists (header +:+ newline +:+ before). by rewrite !append_assoc.
Qed.

Lemma trailing_newline_shape_witness :
  [row_of Sample.core Sample.bug] ≠ []
  ∧ last_char (labels_csv [row_of Sample.core Sample.bug])
    = Some (Ascii.ascii_of_nat 34).
Proof.
  split; [discriminate|].
  exact (proj1 (proj1 (proj2 trailing_newline_shape)
                  [row_of Sample.core Sample.bug] ltac:(discriminate))).
Defined.

(** * Further properties of the script *)

(** ** Selections of the loop's events *)

Section Selections.
Context (w : World) (orgName : JsValue).

Lemma events_from_fetches repos k :
  List.filter is_fetch (events_from w orgName k repos)
  = map (labels_request w orgName) repos.
Proof.
  revert k. induction repos as [|repo repos IH]; intros k; [done|].
  cbn [events_from map]. rewrite List.filter_app, IH.
  unfold iteration, processing.
  destruct (labels_call w k repo); reflexivity.
Qed.

Lemma events_from_logs repos k :
  List.filter is_log (events_from w orgName k repos) = map progress repos.
Proof.
  revert k. induction repos as [|repo repos IH]; intros k; [done|].
  cbn [events_from map]. rewrite List.filter_app, IH.
  unfold iteration, processing.
  destruct (labels_call w k repo); reflexivity.
Qed.

Lemma events_from_errors repos k :
  List.filter is_error (events_from w orgName k repos)
  = diagnostics_from w k repos.
Proof.
  revert k. induction repos as [|repo repos IH]; intros k; [done|].
  cbn [events_from diagnostics_from]. rewrite List.filter_app, IH.
  unfold iteration, processing.
  destruct (labels_call w k repo); reflexivity.
Qed.

Lemma events_from_headers repos k :
  Forall (λ e, ∀ url a c, e = Fetch url a c → a = authorization w ∧ c = accept)
         (events_from w orgName k repos).
Proof.
  revert k. induction repos as [|repo repos IH]; intros k; [constructor|].
  cbn [events_from]. apply Forall_app. split; [|apply IH].
  unfold iteration, processing.
  destruct (labels_call w k repo); cbn [app];
    repeat (apply List.Forall_cons; [|try apply List.Forall_nil]);
    intros url a c [=]; by subst.
Qed.
End Selections.

Lemma authorization_token (w : World) :
  authorization w = "token " +:+ default "undefined" (GITHUB_TOKEN w).
Proof. unfold authorization, TOKEN. by destruct (GITHUB_TOKEN w). Qed.

(** ** The two calls on their own *)

(** X1. [getAllReposForOrg], answered with a non-success status, makes its one
    request and throws an error whose message holds the organization and
    the status text; the body of the response is not read. *)
Theorem getAllReposForOrg_status_failure (w : World) (orgName : JsValue)
    (st : State) (status : string) (b : string + list JsObject) :
  network w (fetches st) = FetchResponse false status b →
  getAllReposForOrg w orgName st =
  ({| trace := trace st
               ++ [Fetch ("https://api.github.com/orgs/" +:+ ToString orgName
                          +:+ "/repos")
                         (authorization w) "application/vnd.github.v3+json"];
      fetches := S (fetches st) |},
   Throw ("Failed to fetch repositories for organization "
          +:+ ToString orgName +:+ ": " +:+ status)).
Proof.
  intros Hnet. rewrite getAllReposForOrg_run, Hnet. reflexivity.
Qed.

Lemma getAllReposForOrg_status_failure_witness :
  network Sample.listing_fails (fetches init)
  = FetchResponse false "Not Found" (inr [])
  ∧ getAllReposForOrg Sample.listing_fails (JsString "acme") init =
    ({| trace := [Fetch "https://api.github.com/orgs/acme/repos" "token t0"
                        "application/vnd.github.v3+json"];
        fetches := 1 |},
     Throw "Failed to fetch repositories for organization acme: Not Found").
Proof.
  split; [reflexivity|].
  exact (getAllReposForOrg_status_failure Sample.listing_fails
           (JsString "acme") init "Not Found" (inr []) eq_refl).
Defined.

(** X2. [getRepoLabels], answered with a non-success status, makes its one
    request and throws an error whose message holds the repository's name
    and the status text, and neither the organization nor the body. *)
Theorem getRepoLabels_status_failure (w : World) (orgName : JsValue)
    (repo : JsObject) (st : State) (status : string)
    (b : string + list JsObject) :
  network w (fetches st) = FetchResponse false status b →
  getRepoLabels w orgName repo st =
  ({| trace := trace st
               ++ [Fetch ("https://api.github.com/repos/" +:+ ToString orgName
                          +:+ "/" +:+ ToString (prop repo "name") +:+ "/labels")
                         (authorization w) "application/vnd.github.v3+json"];
      fetches := S (fetches st) |},
   Throw ("Failed to fetch labels for " +:+ ToString (prop repo "name")
          +:+ ": " +:+ status)).
Proof.
  intros Hnet. rewrite getRepoLabels_run. unfold labels_call.
  rewrite Hnet. reflexivity.
Qed.

Lemma getRepoLabels_status_failure_witness :
  network Sample.listing_fails (fetches init)
  = FetchResponse false "Not Found" (inr [])
  ∧ getRepoLabels Sample.listing_fails (JsString "acme") Sample.web init =
    ({| trace := [Fetch "https://api.github.com/repos/acme/web/labels"
                        "token t0" "application/vnd.github.v3+json"];
        fetches := 1 |},
     Throw "Failed to fetch labels for web: Not Found").
Proof.
  split; [reflexivity|].
  exact (getRepoLabels_status_failure Sample.listing_fails (JsString "acme")
           Sample.web init "Not Found" (inr []) eq_refl).
Defined.

(** X3. A failure below the status check, of the connection or of reading the
    body, leaves both calls with the message of that failure, unchanged. *)
Theorem calls_rethrow_lower_failures (w : World) (orgName : JsValue)
    (repo : JsObject) (st : State) (message : string) :
  (network w (fetches st) = FetchRejected message
   ∨ ∃ status, network w (fetches st) = FetchResponse true status (inl message)) →
  (getAllReposForOrg w orgName st).2 = Throw message
  ∧ (getRepoLabels w orgName repo st).2 = Throw message.
Proof.
  intros Hnet. rewrite getAllReposForOrg_run, getRepoLabels_run.
  unfold labels_call.
  destruct Hnet as [-> | [status ->]]; split; reflexivity.
Qed.

Lemma calls_rethrow_lower_failures_witness :
  network Sample.three 2%nat = FetchRejected "socket hang up"
  ∧ (getRepoLabels Sample.three (JsString "acme") Sample.web
       {| trace := []; fetches := 2 |}).2 = Throw "socket hang up".
Proof.
  split; [reflexivity|].
  exact (proj2 (calls_rethrow_lower_failures Sample.three (JsString "acme")
                  Sample.web {| trace := []; fetches := 2 |} "socket hang up"
                  (or_introl eq_refl))).
Defined.

(** ** The run as a whole *)

(** X4. An argument given as the empty string is taken as missing: the usage
    line, exit code 1, and no request. *)
Theorem empty_argument_is_missing (w : World) :
  argv2 w = Some EmptyString →
  script w = ([ConsoleError usage], 1).
Proof.
  intros Harg. rewrite script_run. unfold orgName_of. by rewrite Harg.
Qed.

Lemma empty_argument_is_missing_witness :
  argv2 Sample.empty_argument = Some EmptyString
  ∧ script Sample.empty_argument = ([ConsoleError usage], 1).
Proof.
  split; [reflexivity|].
  exact (empty_argument_is_missing Sample.empty_argument eq_refl).
Defined.

(** X5. Every request of a run carries the same two headers: the media type,
    and the token of the environment after the word [token].  The token is
    not checked: without one in the environment a run that has its argument
    makes the same requests, the listing and one per repository, with the
    text [undefined] in its place. *)
Theorem requests_carry_the_token (w : World) :
  Forall (λ e, ∀ url a c, e = Fetch url a c →
            a = "token " +:+ default "undefined" (GITHUB_TOKEN w)
            ∧ c = "application/vnd.github.v3+json")
         (script w).1
  ∧ (GITHUB_TOKEN w = None →
     ToBoolean (orgName_of w) = true →
     List.filter is_fetch (script w).1 =
     Fetch ("https://api.github.com/orgs/" +:+ ToString (orgName_of w)
            +:+ "/repos")
           "token undefined" "application/vnd.github.v3+json"
     :: match repos_call w (orgName_of w) with
        | inl _ => []
        | inr repos =>
            map (λ repo,
                   Fetch ("https://api.github.com/repos/"
                          +:+ ToString (orgName_of w) +:+ "/"
                          +:+ ToString (prop repo "name") +:+ "/labels")
                         "token undefined" "application/vnd.github.v3+json")
                repos
        end).
Proof.
  split.
  - rewrite <- authorization_token. rewrite script_run.
    assert (Hlisting : ∀ url a c, listing_request w = Fetch url a c →
                         a = authorization w
                         ∧ c = "application/vnd.github.v3+json").
    { intros url a c [=]. by subst. }
    assert (Hother : ∀ e, is_fetch e = false → ∀ url a c, e = Fetch url a c →
                       a = authorization w
                       ∧ c = "application/vnd.github.v3+json").
    { intros e He url a c ->. discriminate He. }
    destruct (ToBoolean (orgName_of w)); cbn [fst].
    + destruct (repos_call w (orgName_of w)) as [message|repos]; cbn [fst].
      * repeat (apply List.Forall_cons; [|try apply List.Forall_nil]);
          [exact Hlisting | by apply Hother].
      * assert (Hloop : Forall (λ e, ∀ url a c, e = Fetch url a c →
                                  a = authorization w
                                  ∧ c = "application/vnd.github.v3+json")
                               (events_until_write w repos)).
        { unfold events_until_write. apply List.Forall_cons; [exact Hlisting|].
          apply Forall_app. split; [apply events_from_headers|].
          apply List.Forall_cons; [by apply Hother | apply List.Forall_nil]. }
        destruct (disk w "labels.csv" (output w repos)); cbn [fst];
          (apply Forall_app; split; [exact Hloop|]);
          (apply List.Forall_cons; [by apply Hother | apply List.Forall_nil]).
    + apply List.Forall_cons; [by apply Hother | apply List.Forall_nil].
  - intros Htoken Horg.
    assert (Hauth : authorization w = "token undefined").
    { unfold authorization, TOKEN. by rewrite Htoken. }
    rewrite script_run, Horg.
    unfold listing_request, repos_url. rewrite Hauth.
    destruct (repos_call w (orgName_of w)) as [message|repos]; [reflexivity|].
    assert (Hloop : List.filter is_fetch
                      (events_from w (orgName_of w) 1 repos
                       ++ [WriteFileSync "labels.csv" (output w repos)])
                    = map (labels_request w (orgName_of w)) repos).
    { rewrite List.filter_app, events_from_fetches. cbn. by rewrite app_nil_r. }
    unfold labels_request, labels_url in Hloop. rewrite Hauth in Hloop.
    unfold events_until_write, listing_request, repos_url.
    destruct (disk w "labels.csv" (output w repos)); cbn [fst];
      rewrite List.filter_app; cbn [List.filter is_fetch];
      rewrite Hloop, Hauth; by rewrite app_nil_r.
Qed.

Lemma requests_carry_the_token_witness :
  (GITHUB_TOKEN Sample.no_token = None
   ∧ ToBoolean (orgName_of Sample.no_token) = true)
  ∧ List.filter is_fetch (script Sample.no_token).1 =
    [Fetch "https://api.github.com/orgs/acme/repos" "token undefined"
           "application/vnd.github.v3+json";
     Fetch "https://api.github.com/repos/acme/core/labels" "token undefined"
           "application/vnd.github.v3+json";
     Fetch "https://api.github.com/repos/acme/web/labels" "token undefined"
           "application/vnd.github.v3+json"].
Proof.
  split; [split; reflexivity|].
  exact (proj2 (requests_carry_the_token Sample.no_token) eq_refl eq_refl).
Defined.

(** X6. The requests of a run that has its argument: the listing, and then,
    when the listing succeeded, one label request per repository in listing
    order, no more: a failed call is not tried again. *)
Theorem one_request_per_repository (w : World) :
  ToBoolean (orgName_of w) = true →
  List.filter is_fetch (script w).1 =
  listing_request w
  :: match repos_call w (orgName_of w) with
     | inl _ => []
     | inr repos => map (labels_request w (orgName_of w)) repos
     end.
Proof.
  intros Horg. rewrite script_run, Horg.
  destruct (repos_call w (orgName_of w)) as [message|repos]; [reflexivity|].
  assert (Hloop : List.filter is_fetch (events_until_write w repos)
                  = listing_request w
                    :: map (labels_request w (orgName_of w)) repos).
  { unfold events_until_write.
    cbn [List.filter listing_request is_fetch].
    rewrite List.filter_app, events_from_fetches. cbn. by rewrite app_nil_r. }
  destruct (disk w "labels.csv" (output w repos)); cbn [fst];
    rewrite List.filter_app, Hloop; cbn; by rewrite app_nil_r.
Qed.

Lemma one_request_per_repository_witness :
  ToBoolean (orgName_of Sample.three) = true
  ∧ List.filter is_fetch (script Sample.three).1 =
    [Fetch "https://api.github.com/orgs/acme/repos" "token t0" accept;
     Fetch "https://api.github.com/repos/acme/core/labels" "token t0" accept;
     Fetch "https://api.github.com/repos/acme/web/labels" "token t0" accept;
     Fetch "https://api.github.com/repos/acme/docs/labels" "token t0" accept].
Proof.
  split; [reflexivity|].
  exact (one_request_per_repository Sample.three eq_refl).
Defined.

(** X7. Standard output of a run whose listing succeeded: one progress line per
    repository, in listing order, and the completion line when, and only
    when, the write returned. *)
Theorem progress_and_completion_lines (w : World) (repos : list JsObject) :
  ToBoolean (orgName_of w) = true →
  repos_call w (orgName_of w) = inr repos →
  List.filter is_log (script w).1 =
  map progress repos
  ++ match disk w "labels.csv" (labels_csv (all_rows w repos)) with
     | None => [completion]
     | Some _ => []
     end.
Proof.
  intros Horg Hrepos. rewrite script_run, Horg, Hrepos.
  assert (Hloop : List.filter is_log (events_until_write w repos)
                  = map progress repos).
  { unfold events_until_write.
    cbn [List.filter listing_request is_log].
    rewrite List.filter_app, events_from_logs. cbn. by rewrite app_nil_r. }
  rewrite <- output_all_rows.
  destruct (disk w "labels.csv" (output w repos)); cbn [fst];
    rewrite List.filter_app, Hloop; reflexivity.
Qed.

Lemma progress_and_completion_lines_witness :
  (ToBoolean (orgName_of Sample.write_fails) = true
   ∧ repos_call Sample.write_fails (orgName_of Sample.write_fails)
     = inr [Sample.core; Sample.web])
  ∧ List.filter is_log (script Sample.write_fails).1 =
    [ConsoleLog "Fetching labels for core...";
     ConsoleLog "Fetching labels for web..."].
Proof.
  split; [split; reflexivity|].
  exact (progress_and_completion_lines Sample.write_fails
           [Sample.core; Sample.web] eq_refl eq_refl).
Defined.

Lemma diagnostics_from_nil (w : World) (repos : list JsObject) (k : nat) :
  diagnostics_from w k repos = [] ↔
  ∀ i repo, repos !! i = Some repo →
            ∃ labels, labels_call w (k + i) repo = inr labels.
Proof.
  revert k. induction repos as [|repo repos IH]; intros k.
  - split; [|done]. intros _ i repo Hi. by rewrite lookup_nil in Hi.
  - cbn [diagnostics_from]. split.
    + intros Hnil. apply app_eq_nil in Hnil as [Hhead Htail].
      intros [|i] r Hi; cbn in Hi.
      * injection Hi as <-. rewrite Nat.add_0_r.
        destruct (labels_call w k repo) as [m|labels]; [discriminate Hhead|].
        by exists labels.
      * rewrite Nat.add_succ_r. by apply (proj1 (IH (S k)) Htail i r).
    + intros Hall.
      destruct (Hall 0%nat repo eq_refl) as [labels Hlabels].
      rewrite Nat.add_0_r in Hlabels. rewrite Hlabels. cbn [app].
      apply IH. intros i r Hi.
      destruct (Hall (S i) r Hi) as [ls Hls].
      rewrite Nat.add_succ_r in Hls. by exists ls.
Qed.

(** X8. Standard error of a run whose listing succeeded: one diagnostic for
    each repository whose label call failed, in listing order, and then the
    diagnostic of the top-level handler when the write threw.  The loop
    prints nothing there exactly when every label call succeeded. *)
Theorem standard_error_lines (w : World) (repos : list JsObject) :
  ToBoolean (orgName_of w) = true →
  repos_call w (orgName_of w) = inr repos →
  List.filter is_error (script w).1 =
    diagnostics_from w 1 repos
    ++ match disk w "labels.csv" (labels_csv (all_rows w repos)) with
       | None => []
       | Some message =>
           [ConsoleError ("Failed to execute script: " +:+ message)]
       end
  ∧ (diagnostics_from w 1 repos = [] ↔
     ∀ i repo, repos !! i = Some repo →
               ∃ labels, labels_call w (S i) repo = inr labels).
Proof.
  intros Horg Hrepos. split; [|apply (diagnostics_from_nil w repos 1)].
  rewrite script_run, Horg, Hrepos.
  assert (Hloop : List.filter is_error (events_until_write w repos)
                  = diagnostics_from w 1 repos).
  { unfold events_until_write.
    cbn [List.filter listing_request is_error].
    rewrite List.filter_app, events_from_errors. cbn. by rewrite app_nil_r. }
  rewrite <- output_all_rows.
  destruct (disk w "labels.csv" (output w repos)); cbn [fst];
    rewrite List.filter_app, Hloop; reflexivity.
Qed.

Lemma standard_error_lines_witness :
  (ToBoolean (orgName_of Sample.three) = true
   ∧ repos_call Sample.three (orgName_of Sample.three)
     = inr [Sample.core; Sample.web; Sample.docs])
  ∧ List.filter is_error (script Sample.three).1 =
    [ConsoleError "Error fetching labels for web: socket hang up"].
Proof.
  split; [split; reflexivity|].
  exact (proj1 (standard_error_lines Sample.three
                  [Sample.core; Sample.web; Sample.docs] eq_refl eq_refl)).
Defined.

Lemma pivot_unique {A} (f : A → bool) (L : list A) (x : A) (rest : list A) :
  ∀ before y after,
    Forall (λ e, f e = false) L → Forall (λ e, f e = false) rest →
    f y = true →
    L ++ x :: rest = before ++ y :: after →
    before = L ∧ y = x ∧ after = rest.
Proof.
  induction L as [|a L IH]; intros [|b before] y after HL Hrest Hy Heq;
    cbn in Heq.
  - by injection Heq as -> ->.
  - injection Heq as -> ->.
    apply Forall_app in Hrest as [_ Hrest].
    apply Forall_cons in Hrest as [Hy' _]. congruence.
  - injection Heq as -> _. apply Forall_cons in HL as [Ha _]. congruence.
  - injection Heq as -> Heq. apply Forall_cons in HL as [_ HL].
    destruct (IH before y after HL Hrest Hy Heq) as (-> & -> & ->). done.
Qed.

Lemma no_pivot {A} (f : A → bool) (T before : list A) (y : A) (after : list A) :
  Forall (λ e, f e = false) T → f y = true → T ≠ before ++ y :: after.
Proof.
  intros HT Hy ->. apply Forall_app in HT as [_ HT].
  apply Forall_cons in HT as [Hy' _]. congruence.
Qed.

(** X9. A run writes at most once, to [labels.csv], and only at its end:
    whatever precedes a write holds no write, and what follows it is one
    console line, the completion line or the handler's diagnostic. *)
Theorem the_write_comes_last (w : World) (before after : list Event)
    (path data : string) :
  (script w).1 = before ++ WriteFileSync path data :: after →
  path = "labels.csv"
  ∧ Forall (λ e, is_write e = false) before
  ∧ (after = [completion] ∨ ∃ line, after = [ConsoleError line]).
Proof.
  rewrite script_run.
  destruct (ToBoolean (orgName_of w)); cbn [fst].
  - destruct (repos_call w (orgName_of w)) as [message|repos]; cbn [fst].
    + intros Heq. exfalso. revert Heq. by apply (no_pivot is_write);
        [repeat constructor|].
    + assert (Hloop : Forall (λ e, is_write e = false)
                        (listing_request w
                         :: events_from w (orgName_of w) 1 repos)).
      { apply List.Forall_cons; [reflexivity | apply events_from_no_write]. }
      unfold events_until_write.
      destruct (disk w "labels.csv" (output w repos)) as [message|];
        cbn [fst]; rewrite app_comm_cons, <- app_assoc;
        change ([?a] ++ [?b]) with (a :: [b]);
        intros Heq;
        apply (pivot_unique is_write) in Heq as (-> & [= -> _] & ->);
        try done; try (by repeat constructor);
        (split; [reflexivity|]); (split; [exact Hloop|]); eauto.
  - intros Heq. exfalso. revert Heq. by apply (no_pivot is_write);
      [repeat constructor|].
Qed.

Lemma the_write_comes_last_witness :
  (script Sample.empty_org).1 =
    [listing_request Sample.empty_org]
    ++ WriteFileSync "labels.csv" (header +:+ newline) :: [completion]
  ∧ Forall (λ e, is_write e = false) [listing_request Sample.empty_org].
Proof.
  split; [reflexivity|].
  exact (proj1 (proj2 (the_write_comes_last Sample.empty_org
                         [listing_request Sample.empty_org] [completion]
                         "labels.csv" (header +:+ newline) eq_refl))).
Defined.

(** X10. An organization without repositories: after the listing, the write of
    the header line alone, with no label request and no pause between. *)
Theorem no_repositories_header_only (w : World) :
  ToBoolean (orgName_of w) = true →
  repos_call w (orgName_of w) = inr [] →
  ∃ final,
    (script w).1 = [listing_request w;
                    WriteFileSync "labels.csv" (header +:+ newline); final].
Proof.
  intros Horg Hrepos. rewrite script_run, Horg, Hrepos.
  destruct (disk w "labels.csv" (output w [])); cbn [fst]; eexists; reflexivity.
Qed.

Lemma no_repositories_header_only_witness :
  (ToBoolean (orgName_of Sample.empty_org) = true
   ∧ repos_call Sample.empty_org (orgName_of Sample.empty_org) = inr [])
  ∧ ∃ final,
      (script Sample.empty_org).1 =
      [listing_request Sample.empty_org;
       WriteFileSync "labels.csv" (header +:+ newline); final].
Proof.
  split; [split; reflexivity|].
  exact (no_repositories_header_only Sample.empty_org eq_refl eq_refl).
Defined.

(** X11. A repository whose call returns no label is passed over in silence:
    in the run its iteration is the progress line, the request and the
    pause, with no diagnostic, and the data written is the header followed
    by the lines of the labels of the repositories before and after it. *)
Theorem repository_without_labels (w : World) (pre post : list JsObject)
    (repo : JsObject) :
  ToBoolean (orgName_of w) = true →
  repos_call w (orgName_of w) = inr (pre ++ repo :: post) →
  labels_call w (S (length pre)) repo = inr [] →
  let line (r label : JsObject) : string :=
    quote +:+ ToString (prop r "name") +:+ quote +:+ "," +:+
    quote +:+ ToString (prop label "name") +:+ quote +:+ "," +:+
    quote +:+ ToString (js_or (prop label "description") (JsString EmptyString))
    +:+ quote +:+ "," +:+
    quote +:+ "#" +:+ ToString (prop label "color") +:+ quote in
  let lines (k : nat) (rs : list JsObject) : list string :=
    concat (imap (λ i r, map (line r) (labels_returned w (k + i) r)) rs) in
  ∃ rest,
    (script w).1 =
    listing_request w :: events_from w (orgName_of w) 1 pre
    ++ [ConsoleLog ("Fetching labels for " +:+ ToString (prop repo "name")
                    +:+ "...");
        Fetch ("https://api.github.com/repos/" +:+ ToString (orgName_of w)
               +:+ "/" +:+ ToString (prop repo "name") +:+ "/labels")
              (authorization w) "application/vnd.github.v3+json";
        SetTimeout 1000]
    ++ events_from w (orgName_of w) (S (S (length pre))) post
    ++ WriteFileSync "labels.csv"
         ("Repo,Label,Description,Color" +:+ newline +:+
          String.concat newline
            (lines 1%nat pre ++ lines (S (S (length pre))) post))
       :: rest.
Proof.
  intros Horg Hrepos Hempty line lines.
  assert (Hlines : ∀ k rs, map render (rows_from w k rs) = lines k rs).
  { intros k rs. apply map_render_rows_from. }
  destruct (script_around_repository w pre post repo Horg Hrepos)
    as [rest Htrace].
  exists rest. rewrite Htrace.
  unfold iteration, processing, repo_rows, labels_returned.
  rewrite Hempty. cbn [map app]. unfold labels_csv.
  rewrite map_app, !Hlines. reflexivity.
Qed.

Lemma repository_without_labels_witness :
  (ToBoolean (orgName_of Sample.quiet) = true
   ∧ repos_call Sample.quiet (orgName_of Sample.quiet)
     = inr ([Sample.core] ++ Sample.web :: [Sample.docs])
   ∧ labels_call Sample.quiet 2 Sample.web = inr [])
  ∧ ∃ rest,
      (script Sample.quiet).1 =
      [Fetch "https://api.github.com/orgs/acme/repos" "token t0" accept;
       ConsoleLog "Fetching labels for core...";
       Fetch "https://api.github.com/repos/acme/core/labels" "token t0" accept;
       SetTimeout 1000;
       ConsoleLog "Fetching labels for web...";
       Fetch "https://api.github.com/repos/acme/web/labels" "token t0" accept;
       SetTimeout 1000;
       ConsoleLog "Fetching labels for docs...";
       Fetch "https://api.github.com/repos/acme/docs/labels" "token t0" accept;
       SetTimeout 1000;
       WriteFileSync "labels.csv"
         ("Repo,Label,Description,Color" +:+ newline +:+
          quote +:+ "core" +:+ quote +:+ "," +:+ quote +:+ "bug" +:+ quote
          +:+ "," +:+ quote +:+ quote +:+ "," +:+ quote +:+ "#d73a4a"
          +:+ quote +:+ newline +:+
          quote +:+ "docs" +:+ quote +:+ "," +:+ quote +:+ "typo, minor"
          +:+ quote +:+ "," +:+ quote +:+ "Spelling, grammar" +:+ quote
          +:+ "," +:+ quote +:+ "#0e8a16" +:+ quote)]
      ++ rest.
Proof.
  split; [repeat split|].
  exact (repository_without_labels Sample.quiet [Sample.core]
           [Sample.docs] Sample.web eq_refl eq_refl eq_refl).
Defined.

(** X12. Fields the platform left out are read as [undefined] and printed as
    that word.  For a repository without [name] the loop prints
    [Fetching labels for undefined...] and then requests
    [/repos/<org>/undefined/labels], as [getRepoLabels] does on its own, and
    its rows are rendered under the name [undefined]; a label without
    [color] gets the color field [#undefined]. *)
Theorem absent_fields_read_undefined (w : World) (orgName : JsValue)
    (repo label : JsObject) :
  (repo !! "name" = None →
     (∀ st,
        trace (getRepoLabels w orgName repo st).1 =
        trace st
        ++ [Fetch ("https://api.github.com/repos/" +:+ ToString orgName
                   +:+ "/undefined/labels")
                  (authorization w) "application/vnd.github.v3+json"])
     ∧ (∀ rest allLabels st, ∃ events,
          trace (for_of_repos w orgName (repo :: rest) allLabels st).1 =
          trace st
          ++ ConsoleLog "Fetching labels for undefined..."
             :: Fetch ("https://api.github.com/repos/" +:+ ToString orgName
                       +:+ "/undefined/labels")
                      (authorization w) "application/vnd.github.v3+json"
             :: events)
     ∧ ∃ fields, render (row_of repo label)
                 = quote +:+ "undefined" +:+ quote +:+ fields)
  ∧ (label !! "color" = None →
     ∃ before, render (row_of repo label)
               = before +:+ quote +:+ "#undefined" +:+ quote).
Proof.
  split.
  - intros Hname.
    assert (Hprop : prop repo "name" = JsUndefined).
    { unfold prop. by rewrite Hname. }
    split; [|split].
    + intros st. rewrite getRepoLabels_run. cbn [fst trace].
      unfold labels_url. by rewrite Hprop.
    + intros rest allLabels st. rewrite for_of_repos_run. cbn [fst trace].
      cbn [events_from]. unfold iteration, processing, labels_url.
      rewrite Hprop. cbn [ToString]. rewrite <- !app_assoc. cbn [app].
      eexists. reflexivity.
    + unfold row_of, render. rewrite Hprop. cbn [ToString].
      eexists. reflexivity.
  - intros Hcolor. unfold row_of, render.
    unfold prop at 4. rewrite Hcolor. cbn [default ToString].
    exists (quote +:+ ToString (prop repo "name") +:+ quote +:+ "," +:+
            quote +:+ ToString (prop label "name") +:+ quote +:+ "," +:+
            quote
            +:+ ToString (js_or (prop label "description") (JsString EmptyString))
            +:+ quote +:+ ",").
    rewrite !append_assoc. reflexivity.
Qed.

Lemma absent_fields_read_undefined_witness :
  (Sample.nameless !! "name" = None ∧ Sample.colorless !! "color" = None)
  ∧ (∃ events,
       trace (for_of_repos Sample.acme (JsString "acme") [Sample.nameless] []
                {| trace := []; fetches := 1 |}).1 =
       [] ++ ConsoleLog "Fetching labels for undefined..."
       :: Fetch "https://api.github.com/repos/acme/undefined/labels"
                "token t0" "application/vnd.github.v3+json"
       :: events)
  ∧ ∃ before, render (row_of Sample.nameless Sample.colorless)
              = before +:+ quote +:+ "#undefined" +:+ quote.
Proof.
  split; [split; reflexivity|].
  pose proof (absent_fields_read_undefined Sample.acme (JsString "acme")
                Sample.nameless Sample.colorless) as [Hname Hcolor].
  split; [|exact (Hcolor eq_refl)].
  exact (proj1 (proj2 (Hname eq_refl)) [] [] {| trace := []; fetches := 1 |}).
Defined.

(** ** Reading the file back *)

Lemma append_cons (a : Ascii.ascii) (s t : string) :
  String a s +:+ t = String a (s +:+ t).
Proof. reflexivity. Qed.

Lemma has_char_app (c : Ascii.ascii) (s t : string) :
  has_char c (s +:+ t) = has_char c s || has_char c t.
Proof.
  induction s as [|a s IH]; [done|].
  rewrite append_cons. cbn [has_char]. by rewrite IH, orb_assoc.
Qed.

Lemma count_char_app (c : Ascii.ascii) (s t : string) :
  count_char c (s +:+ t) = (count_char c s + count_char c t)%nat.
Proof.
  induction s as [|a s IH]; [done|].
  rewrite append_cons. cbn [count_char]. rewrite IH. lia.
Qed.

Lemma count_char_absent (c : Ascii.ascii) (s : string) :
  has_char c s = false → count_char c s = 0%nat.
Proof.
  induction s as [|a s IH]; [done|]. cbn [has_char count_char].
  intros [Ha Hs]%orb_false_iff. by rewrite Ha, IH.
Qed.

(** Two strings free of [c], each followed by [c], are told apart by what
    they are. *)
Lemma split_at_char (c : Ascii.ascii) (s1 : string) :
  ∀ s2 t1 t2,
    has_char c s1 = false → has_char c s2 = false →
    s1 +:+ String c t1 = s2 +:+ String c t2 → s1 = s2 ∧ t1 = t2.
Proof.
  induction s1 as [|a s1 IH]; intros [|b s2] t1 t2 H1 H2 Heq;
    rewrite ?append_cons in Heq; cbn [String.append] in Heq.
  - by injection Heq as ->.
  - injection Heq as <- _. cbn [has_char] in H2.
    by rewrite Ascii.eqb_refl in H2.
  - injection Heq as -> _. cbn [has_char] in H1.
    by rewrite Ascii.eqb_refl in H1.
  - injection Heq as -> Heq. cbn [has_char] in H1, H2.
    apply orb_false_iff in H1 as [_ H1]. apply orb_false_iff in H2 as [_ H2].
    destruct (IH s2 t1 t2 H1 H2 Heq) as [-> ->]. done.
Qed.

(** The same when what follows is the end of the string or [c]. *)
Lemma split_at_end_or_char (c : Ascii.ascii) (s1 : string) :
  ∀ s2 t1 t2,
    has_char c s1 = false → has_char c s2 = false →
    (t1 = EmptyString ∨ ∃ u, t1 = String c u) →
    (t2 = EmptyString ∨ ∃ u, t2 = String c u) →
    s1 +:+ t1 = s2 +:+ t2 → s1 = s2 ∧ t1 = t2.
Proof.
  induction s1 as [|a s1 IH]; intros [|b s2] t1 t2 H1 H2 Ht1 Ht2 Heq;
    rewrite ?append_cons in Heq.
  - done.
  - change (t1 = String b (s2 +:+ t2)) in Heq. cbn [has_char] in H2.
    apply orb_false_iff in H2 as [Hb _].
    destruct Ht1 as [->|[u ->]]; [discriminate Heq|].
    injection Heq as <- _. by rewrite Ascii.eqb_refl in Hb.
  - change (String a (s1 +:+ t1) = t2) in Heq. cbn [has_char] in H1.
    apply orb_false_iff in H1 as [Ha _].
    destruct Ht2 as [->|[u ->]]; [discriminate Heq|].
    injection Heq as -> _. by rewrite Ascii.eqb_refl in Ha.
  - injection Heq as -> Heq. cbn [has_char] in H1, H2.
    apply orb_false_iff in H1 as [_ H1]. apply orb_false_iff in H2 as [_ H2].
    destruct (IH s2 t1 t2 H1 H2 Ht1 Ht2 Heq) as [-> ->]. done.
Qed.

Lemma render_shape (r : Row) :
  render r =
  let '(repo, label, description, color) := row_text r in
  String quote_char (repo +:+ String quote_char (String (Ascii.ascii_of_nat 44) (
  String quote_char (label +:+ String quote_char (String (Ascii.ascii_of_nat 44) (
  String quote_char (description +:+ String quote_char (String (Ascii.ascii_of_nat 44) (
  String quote_char (String (Ascii.ascii_of_nat 35) (color +:+ String quote_char EmptyString))))))))))).
Proof. by destruct r as [[[repo label] description] color]. Qed.

Lemma row_free_of_fields (c : Ascii.ascii) (r : Row) :
  row_free_of c r = true →
  let '(repo, label, description, color) := row_text r in
  has_char c repo = false ∧ has_char c label = false
  ∧ has_char c description = false ∧ has_char c color = false.
Proof.
  unfold row_free_of. destruct (row_text r) as [[[repo label] description] color].
  rewrite negb_true_iff, !orb_false_iff. tauto.
Qed.

Lemma quoted_fields_inj (a1 b1 c1 d1 a2 b2 c2 d2 t1 t2 : string) :
  has_char quote_char a1 = false → has_char quote_char a2 = false →
  has_char quote_char b1 = false → has_char quote_char b2 = false →
  has_char quote_char c1 = false → has_char quote_char c2 = false →
  has_char quote_char d1 = false → has_char quote_char d2 = false →
  a1 +:+ String quote_char (String (Ascii.ascii_of_nat 44) (String
    quote_char (b1 +:+ String quote_char (String (Ascii.ascii_of_nat 44)
    (String quote_char (c1 +:+ String quote_char (String
    (Ascii.ascii_of_nat 44) (String quote_char (String (Ascii.ascii_of_nat
    35) (d1 +:+ String quote_char t1))))))))))
  =
  a2 +:+ String quote_char (String (Ascii.ascii_of_nat 44) (String
    quote_char (b2 +:+ String quote_char (String (Ascii.ascii_of_nat 44)
    (String quote_char (c2 +:+ String quote_char (String
    (Ascii.ascii_of_nat 44) (String quote_char (String (Ascii.ascii_of_nat
    35) (d2 +:+ String quote_char t2)))))))))) →
  (a1, b1, c1, d1) = (a2, b2, c2, d2).
Proof.
  intros Ha1 Ha2 Hb1 Hb2 Hc1 Hc2 Hd1 Hd2 Heq.
  apply split_at_char in Heq as [-> [= Heq]]; [|done..].
  apply split_at_char in Heq as [-> [= Heq]]; [|done..].
  apply split_at_char in Heq as [-> [= Heq]]; [|done..].
  apply split_at_char in Heq as [-> _]; [|done..].
  reflexivity.
Qed.

(** X13. A rendered line gives back its four fields when none of them holds a
    double quote: two such rows with the same line have the same text. *)
Theorem quote_free_line_determines_fields (r1 r2 : Row) :
  row_free_of quote_char r1 = true →
  row_free_of quote_char r2 = true →
  render r1 = render r2 →
  row_text r1 = row_text r2.
Proof.
  intros H1 H2. rewrite !render_shape.
  apply row_free_of_fields in H1, H2.
  destruct (row_text r1) as [[[a1 b1] c1] d1].
  destruct (row_text r2) as [[[a2 b2] c2] d2].
  destruct H1 as (Ha1 & Hb1 & Hc1 & Hd1), H2 as (Ha2 & Hb2 & Hc2 & Hd2).
  intros [= Heq]. by apply quoted_fields_inj in Heq.
Qed.

Lemma quote_free_line_determines_fields_witness :
  (row_free_of quote_char (row_of Sample.core Sample.typo) = true
   ∧ row_free_of quote_char (row_of Sample.core_full Sample.typo) = true
   ∧ render (row_of Sample.core Sample.typo)
     = render (row_of Sample.core_full Sample.typo))
  ∧ row_text (row_of Sample.core Sample.typo)
    = row_text (row_of Sample.core_full Sample.typo).
Proof.
  split; [repeat split|].
  exact (quote_free_line_determines_fields (row_of Sample.core Sample.typo)
           (row_of Sample.core_full Sample.typo) eq_refl eq_refl eq_refl).
Defined.

(** X14. Without that condition it does not: fields are written unescaped, and
    two rows of different text can render to one and the same line. *)
Theorem unescaped_quotes_are_ambiguous :
  ¬ (∀ r1 r2 : Row, render r1 = render r2 → row_text r1 = row_text r2).
Proof.
  intros Hinj.
  specialize (Hinj (row_of Sample.core Sample.ambiguous1)
                   (row_of Sample.core Sample.ambiguous2) eq_refl).
  discriminate Hinj.
Qed.

Lemma append_nil_r (s : string) : s +:+ EmptyString = s.
Proof. induction s as [|a s IH]; [done|]. by rewrite append_cons, IH. Qed.

Lemma append_inj_l (s t1 t2 : string) : s +:+ t1 = s +:+ t2 → t1 = t2.
Proof.
  induction s as [|a s IH]; [done|]. rewrite !append_cons. intros [= Heq].
  by apply IH.
Qed.

Lemma concat_newline_cons (x : string) (l : list string) :
  String.concat newline (x :: l) = x +:+ joined_tail l.
Proof.
  destruct l as [|y l]; [by rewrite append_nil_r | reflexivity].
Qed.

Lemma joined_tail_shape (l : list string) :
  joined_tail l = EmptyString ∨ ∃ u, joined_tail l = String newline_char u.
Proof. destruct l; [by left | right; by eexists]. Qed.

Lemma concat_newline_inj (l1 : list string) :
  ∀ l2,
    Forall (λ s, has_char newline_char s = false ∧ s ≠ EmptyString) l1 →
    Forall (λ s, has_char newline_char s = false ∧ s ≠ EmptyString) l2 →
    String.concat newline l1 = String.concat newline l2 → l1 = l2.
Proof.
  induction l1 as [|x l1 IH]; intros [|y l2] H1 H2 Heq.
  - done.
  - apply Forall_cons in H2 as [[_ Hy] _]. rewrite concat_newline_cons in Heq.
    destruct y; [done | discriminate Heq].
  - apply Forall_cons in H1 as [[_ Hx] _]. rewrite concat_newline_cons in Heq.
    destruct x; [done | discriminate Heq].
  - apply Forall_cons in H1 as [[Hx _] H1].
    apply Forall_cons in H2 as [[Hy _] H2].
    rewrite !concat_newline_cons in Heq.
    apply (split_at_end_or_char newline_char) in Heq as [-> Htail];
      [|done|done|apply joined_tail_shape..].
    f_equal. destruct l1 as [|x1 l1], l2 as [|y2 l2]; try done.
    injection Htail as Htail. by apply IH.
Qed.

Lemma render_newline_free (r : Row) :
  row_free_of newline_char r = true →
  has_char newline_char (render r) = false.
Proof.
  intros Hr. rewrite render_shape. apply row_free_of_fields in Hr.
  destruct (row_text r) as [[[a b] c] d]. destruct Hr as (Ha & Hb & Hc & Hd).
  repeat (cbn [has_char]; rewrite ?has_char_app, ?Ha, ?Hb, ?Hc, ?Hd).
  reflexivity.
Qed.

Lemma render_not_empty (r : Row) : render r ≠ EmptyString.
Proof.
  rewrite render_shape. by destruct (row_text r) as [[[a b] c] d].
Qed.

(** X15. The file gives back the table when no field holds a double quote or a
    newline: two such lists of rows written as the same data have the same
    number of rows, with the same text row by row. *)
Theorem clean_file_determines_rows (rows1 rows2 : list Row) :
  Forall (λ r, row_free_of quote_char r = true
               ∧ row_free_of newline_char r = true) rows1 →
  Forall (λ r, row_free_of quote_char r = true
               ∧ row_free_of newline_char r = true) rows2 →
  labels_csv rows1 = labels_csv rows2 →
  map row_text rows1 = map row_text rows2.
Proof.
  intros H1 H2 Heq. unfold labels_csv in Heq.
  do 2 apply append_inj_l in Heq.
  apply concat_newline_inj in Heq.
  - revert rows2 H2 Heq.
    induction rows1 as [|r1 rows1 IH]; intros [|r2 rows2] H2 Heq; try done.
    injection Heq as Hline Heq.
    apply Forall_cons in H1 as [[Hq1 _] H1].
    apply Forall_cons in H2 as [[Hq2 _] H2].
    cbn [map]. f_equal; [|by apply IH].
    revert Hline. rewrite !render_shape.
    apply row_free_of_fields in Hq1, Hq2.
    destruct (row_text r1) as [[[a1 b1] c1] d1].
    destruct (row_text r2) as [[[a2 b2] c2] d2].
    destruct Hq1 as (Ha1 & Hb1 & Hc1 & Hd1), Hq2 as (Ha2 & Hb2 & Hc2 & Hd2).
    intros [= Hline]. by apply quoted_fields_inj in Hline.
  - apply Forall_map. eapply Forall_impl; [exact H1|].
    intros r [_ Hn]. split; [by apply render_newline_free | apply render_not_empty].
  - apply Forall_map. eapply Forall_impl; [exact H2|].
    intros r [_ Hn]. split; [by apply render_newline_free | apply render_not_empty].
Qed.

Lemma clean_file_determines_rows_witness :
  (Forall (λ r, row_free_of quote_char r = true
                ∧ row_free_of newline_char r = true)
          [row_of Sample.core Sample.bug; row_of Sample.core Sample.typo]
   ∧ Forall (λ r, row_free_of quote_char r = true
                  ∧ row_free_of newline_char r = true)
            [row_of Sample.core_full Sample.bug;
             row_of Sample.core_full Sample.typo]
   ∧ labels_csv [row_of Sample.core Sample.bug; row_of Sample.core Sample.typo]
     = labels_csv [row_of Sample.core_full Sample.bug;
                   row_of Sample.core_full Sample.typo])
  ∧ map row_text [row_of Sample.core Sample.bug; row_of Sample.core Sample.typo]
    = map row_text [row_of Sample.core_full Sample.bug;
                    row_of Sample.core_full Sample.typo].
Proof.
  assert (H1 : Forall (λ r, row_free_of quote_char r = true
                            ∧ row_free_of newline_char r = true)
                 [row_of Sample.core Sample.bug; row_of Sample.core Sample.typo])
    by (repeat constructor).
  assert (H2 : Forall (λ r, row_free_of quote_char r = true
                            ∧ row_free_of newline_char r = true)
                 [row_of Sample.core_full Sample.bug;
                  row_of Sample.core_full Sample.typo])
    by (repeat constructor).
  split; [split; [exact H1 | split; [exact H2 | reflexivity]]|].
  exact (clean_file_determines_rows _ _ H1 H2 eq_refl).
Defined.

Lemma count_concat_newline (l : list string) :
  Forall (λ s, has_char newline_char s = false) l →
  count_char newline_char (String.concat newline l) = pred (length l).
Proof.
  induction 1 as [|x l Hx Hl IH]; [done|].
  rewrite concat_newline_cons, count_char_app, (count_char_absent _ _ Hx).
  destruct l as [|y l]; [done|].
  unfold joined_tail. cbn [count_char]. rewrite IH. reflexivity.
Qed.

(** X16. The data holds one line per row when no field holds a newline: the
    header line and the rows are separated by as many newlines as there are
    rows, and by the single newline after the header when there is none. *)
Theorem one_line_per_row (rows : list Row) :
  Forall (λ r, row_free_of newline_char r = true) rows →
  count_char newline_char (labels_csv rows) = Nat.max 1 (length rows).
Proof.
  intros Hrows. unfold labels_csv.
  rewrite !count_char_app, count_concat_newline.
  - rewrite length_map. change (count_char newline_char header) with 0%nat.
    change (count_char newline_char newline) with 1%nat. lia.
  - apply Forall_map. eapply Forall_impl; [exact Hrows|].
    intros r Hr. by apply render_newline_free.
Qed.

Lemma one_line_per_row_witness :
  Forall (λ r, row_free_of newline_char r = true)
         [row_of Sample.core Sample.bug; row_of Sample.core Sample.typo]
  ∧ count_char newline_char
      (labels_csv [row_of Sample.core Sample.bug;
                   row_of Sample.core Sample.typo]) = 2%nat.
Proof.
  assert (H : Forall (λ r, row_free_of newline_char r = true)
                [row_of Sample.core Sample.bug; row_of Sample.core Sample.typo])
    by (repeat constructor).
  split; [exact H|]. exact (one_line_per_row _ H).
Defined.

(** ** The loop *)

(** X17. Whatever the platform answers to the label requests, the loop ends
    normally: it has made one request per repository, kept the rows and the
    events it started with, and only added to them. *)
Theorem the_loop_never_throws (w : World) (orgName : JsValue)
    (repos : list JsObject) (allLabels : list Row) (st : State) :
  ∃ st' rows events,
    for_of_repos w orgName repos allLabels st = (st', Normal (allLabels ++ rows))
    ∧ fetches st' = (fetches st + length repos)%nat
    ∧ trace st' = trace st ++ events.
Proof.
  rewrite for_of_repos_run. do 3 eexists. split; [reflexivity|]. by split.
Qed.

Lemma same_names_same_loop (w : World) (orgName : JsValue)
    (repos repos' : list JsObject) :
  Forall2 (λ r r', prop r "name" = prop r' "name") repos repos' →
  ∀ k, events_from w orgName k repos = events_from w orgName k repos'
       ∧ rows_from w k repos = rows_from w k repos'.
Proof.
  induction 1 as [|r r' repos repos' Hname _ IH]; intros k; [done|].
  cbn [events_from rows_from]. destruct (IH (S k)) as [-> ->].
  unfold iteration, processing, repo_rows, labels_returned, labels_call,
    labels_url, row_of.
  rewrite Hname. done.
Qed.

(** X18. Of a repository object the loop reads [name] and nothing else: two
    listings whose repositories have the same names, in the same order, make
    it do the same thing. *)
Theorem only_the_name_is_read (w : World) (orgName : JsValue)
    (repos repos' : list JsObject) (allLabels : list Row) (st : State) :
  Forall2 (λ r r', prop r "name" = prop r' "name") repos repos' →
  for_of_repos w orgName repos allLabels st
  = for_of_repos w orgName repos' allLabels st.
Proof.
  intros Hnames. rewrite !for_of_repos_run.
  destruct (same_names_same_loop w orgName repos repos' Hnames (fetches st))
    as [-> ->].
  by rewrite (Forall2_length _ _ _ Hnames).
Qed.

Lemma only_the_name_is_read_witness :
  Forall2 (λ r r', prop r "name" = prop r' "name")
          [Sample.core_full; Sample.web] [Sample.core; Sample.web]
  ∧ for_of_repos Sample.acme (JsString "acme") [Sample.core_full; Sample.web]
      [] {| trace := []; fetches := 1 |}
    = for_of_repos Sample.acme (JsString "acme") [Sample.core; Sample.web]
        [] {| trace := []; fetches := 1 |}.
Proof.
  assert (H : Forall2 (λ r r', prop r "name" = prop r' "name")
                [Sample.core_full; Sample.web] [Sample.core; Sample.web])
    by (repeat constructor).
  split; [exact H|].
  exact (only_the_name_is_read Sample.acme (JsString "acme") _ _ []
           {| trace := []; fetches := 1 |} H).
Defined.
